(** * The advisor API of catanatron ([catanatron/web/advisor_api.py])

    A shallow embedding of the board builder ([create_custom_board]), the
    state reconstructor ([create_game_from_advisor_request]), the advisor
    endpoint and the explanation generator, with the properties of the
    specification proved (or refuted) about them.

    The rules engine, the search player, networkx and Python's value
    formatting are collaborators of this file of the program: they are the
    fields of the class [Externals]. *)

From Stdlib Require Import ZArith Ascii.
From stdpp Require Import base gmap strings list fin_maps pretty sorting.

Local Open Scope Z_scope.
Set Warnings "-register-all,-clear-no-such-hyp".

(** ** Exceptions and fallible code *)

(** The exceptions the embedded code can raise. [KeyError]: a missing dict key
    or enum member name; [TypeError]: [len] of an object without length;
    [IndexError]: a list index out of range; [NetworkXError]: [neighbors] of
    a node that is not in the graph; [EngineError]: anything a collaborator
    raises. *)
Inductive Exn := KeyError | TypeError | IndexError | NetworkXError | EngineError.

Inductive result (A : Type) :=
  | Ok (a : A)
  | Raise (e : Exn).
Arguments Ok {A} a.
Arguments Raise {A} e.

#[global] Instance result_ret : MRet result := @Ok.
#[global] Instance result_bind : MBind result := λ A B f m,
  match m with
  | Ok a => f a
  | Raise e => Raise e
  end.

#[global] Instance result_fmap : FMap result := λ A B f m,
  match m with
  | Ok a => Ok (f a)
  | Raise e => Raise e
  end.

(** A Python [for] loop whose body may raise. *)
Fixpoint for_each {A S : Type} (body : S → A → result S) (l : list A) (s : S) : result S :=
  match l with
  | [] => Ok s
  | x :: l' => s' ← body s x; for_each body l' s'
  end.

(** [d[k]] on a dict. *)
Definition dict_getitem `{Countable K} {V : Type} (d : gmap K V) (k : K) : result V :=
  match d !! k with
  | Some v => Ok v
  | None => Raise KeyError
  end.

(** [k in d]. *)
Definition dict_contains `{Countable K} {V : Type} (k : K) (d : gmap K V) : bool :=
  bool_decide (is_Some (d !! k)).

(** ** Tokens and enumerations *)

Inductive FastResource := WOOD | BRICK | SHEEP | WHEAT | ORE.

Definition RESOURCE_MAP : gmap string FastResource :=
  list_to_map [("WOOD", WOOD); ("BRICK", BRICK); ("SHEEP", SHEEP); ("WHEAT", WHEAT); ("ORE", ORE)].

Definition DEV_CARD_MAP : gmap string string :=
  list_to_map [("KNIGHT", "KNIGHT"); ("VICTORY_POINT", "VICTORY_POINT");
               ("ROAD_BUILDING", "ROAD_BUILDING"); ("YEAR_OF_PLENTY", "YEAR_OF_PLENTY");
               ("MONOPOLY", "MONOPOLY")].

(** A JSON scalar where the code tests [isinstance(_, str)]. *)
Inductive JToken :=
  | JStr (s : string)
  | JNum (z : Z).

(** ** Coordinates and the order [sorted] uses *)

Abbreviation Coordinate := (Z * Z * Z)%type.

(** Python's [<] on 3-tuples of integers. *)
Definition coord_lt (a b : Coordinate) : Prop :=
  a.1.1 < b.1.1 ∨ (a.1.1 = b.1.1 ∧ (a.1.2 < b.1.2 ∨ (a.1.2 = b.1.2 ∧ a.2 < b.2))).

#[global] Instance coord_lt_dec a b : Decision (coord_lt a b).
Proof. unfold coord_lt. apply _. Defined.

(** [sorted(l, key=key)]: Python's sort is stable, which this insertion sort
    is too (an element goes before the first one whose key is not smaller). *)
Fixpoint sorted_insert {A : Type} (key : A → Coordinate) (x : A) (l : list A) : list A :=
  match l with
  | [] => [x]
  | y :: l' =>
      if decide (coord_lt (key y) (key x)) then y :: sorted_insert key x l'
      else x :: y :: l'
  end.

Definition sorted {A : Type} (key : A → Coordinate) (l : list A) : list A :=
  foldr (sorted_insert key) [] l.

Definition coord_sum (c : Coordinate) : Z := c.1.1 + c.1.2 + c.2.

(** ** Request descriptors *)

(** A land-tile descriptor: [t["coordinate"]], [t.get("resource")],
    [t.get("number")]. *)
Record TileInfo := {
  tile_coordinate : Coordinate;
  tile_resource : option string;
  tile_number : option Z;
}.

(** A port descriptor: [p["coordinate"]], [p["direction"]], [p.get("resource")]. *)
Record PortInfo := {
  port_coordinate : Coordinate;
  port_direction : JToken;
  port_resource : option string;
}.

(** ** Tiles and maps *)

(** The types catanatron's map module declares and this file only passes on. *)
Class MapTypes := {
  Nodes : Type;
  Edges : Type;
  Direction : Type;
}.

Section Tiles.
Context {MT : MapTypes}.

(** What a [Port] holds as its direction: a member of [Direction], or the
    request's value unchanged when it was not a string. *)
Inductive PortDirection :=
  | Dir (d : Direction)
  | DirRaw (z : Z).

Inductive Tile :=
  | LandTile (id : Z) (resource : option FastResource) (number : option Z) (nodes : Nodes) (edges : Edges)
  | Port (id : Z) (resource : option FastResource) (direction : PortDirection) (nodes : Nodes) (edges : Edges)
  | Water (nodes : Nodes) (edges : Edges).

(** [CatanMap.from_tiles(all_tiles)]: the map object built over the tile dict. *)
Record CatanMap := from_tiles {
  tiles : gmap Coordinate Tile;
}.

Definition is_water (t : Tile) : bool :=
  match t with
  | Water _ _ => true
  | _ => false
  end.

Definition tile_resource_of (t : Tile) : option FastResource :=
  match t with
  | LandTile _ r _ _ _ => r
  | Port _ r _ _ _ => r
  | Water _ _ => None
  end.

End Tiles.

(** The map functions of catanatron the builder calls. *)
Class MapExternals {MT : MapTypes} := {
  (** [get_nodes_and_edges(tiles, coordinate, node_autoinc)]: the shared
      allocator of vertex and edge identifiers. *)
  get_nodes_and_edges : gmap Coordinate Tile → Coordinate → Z → Nodes * Edges * Z;
  (** [Direction[name]]: [None] when the enumeration has no such member. *)
  Direction_getitem : string → option Direction;
}.

(** ** The board builder *)

Section Builder.
Context {MT : MapTypes} {ME : MapExternals}.

(** The body of the loop over [sorted_tiles] (lines 80-96); the state is
    [(all_tiles, node_autoinc, tile_autoinc)]. *)
Definition place_land_tile (acc : gmap Coordinate Tile * Z * Z) (tile_info : TileInfo)
  : gmap Coordinate Tile * Z * Z :=
  let '(all_tiles, node_autoinc, tile_autoinc) := acc in
  let coord := tile_coordinate tile_info in
  let '(nodes, edges, node_autoinc) := get_nodes_and_edges all_tiles coord node_autoinc in
  let land_tile :=
    match tile_resource tile_info with
    | None => LandTile tile_autoinc None None nodes edges
    | Some resource =>
        let fast_resource := RESOURCE_MAP !! resource in
        LandTile tile_autoinc fast_resource (tile_number tile_info) nodes edges
    end in
  (<[coord := land_tile]> all_tiles, node_autoinc, tile_autoinc + 1).

(** The body of the loop over [ports_data] (lines 99-111); the state is
    [(all_tiles, node_autoinc, port_autoinc)]. *)
Definition place_port (acc : gmap Coordinate Tile * Z * Z) (port_info : PortInfo)
  : result (gmap Coordinate Tile * Z * Z) :=
  let '(all_tiles, node_autoinc, port_autoinc) := acc in
  let coord := port_coordinate port_info in
  let '(nodes, edges, node_autoinc) := get_nodes_and_edges all_tiles coord node_autoinc in
  let fast_resource :=
    match port_resource port_info with
    | Some resource => if decide (resource = EmptyString) then None else RESOURCE_MAP !! resource
    | None => None
    end in
  direction ←
    match port_direction port_info with
    | JStr direction_str =>
        match Direction_getitem direction_str with
        | Some d => Ok (Dir d)
        | None => Raise KeyError
        end
    | JNum z => Ok (DirRaw z)
    end;
  Ok (<[coord := Port port_autoinc fast_resource direction nodes edges]> all_tiles,
      node_autoinc, port_autoinc + 1).

Definition water_coords : list Coordinate :=
  [ (3, -3, 0); (2, -3, 1); (1, -3, 2); (0, -3, 3);
    (-1, -2, 3); (-2, -1, 3); (-3, 0, 3); (-3, 1, 2);
    (-3, 2, 1); (-3, 3, 0); (-2, 3, -1); (-1, 3, -2);
    (0, 3, -3); (1, 2, -3); (2, 1, -3); (3, 0, -3);
    (3, -1, -2); (3, -2, -1) ].

(** The body of the loop over [water_coords] (lines 121-124). *)
Definition place_water (acc : gmap Coordinate Tile * Z) (coord : Coordinate)
  : gmap Coordinate Tile * Z :=
  let '(all_tiles, node_autoinc) := acc in
  if dict_contains coord all_tiles then (all_tiles, node_autoinc)
  else
    let '(nodes, edges, node_autoinc) := get_nodes_and_edges all_tiles coord node_autoinc in
    (<[coord := Water nodes edges]> all_tiles, node_autoinc).

(** The tile dict after the land tiles and the ports, before the water ring. *)
Definition placed_tiles (tiles_data : list TileInfo) (ports_data : list PortInfo)
  : result (gmap Coordinate Tile * Z) :=
  let sorted_tiles := sorted tile_coordinate tiles_data in
  let '(all_tiles, node_autoinc, _) := foldl place_land_tile (∅, 0, 0) sorted_tiles in
  '(all_tiles, node_autoinc, _) ← for_each place_port ports_data (all_tiles, node_autoinc, 0);
  Ok (all_tiles, node_autoinc).

Definition create_custom_board (tiles_data : list TileInfo) (ports_data : list PortInfo)
  : result CatanMap :=
  acc ← placed_tiles tiles_data ports_data;
  let '(all_tiles, _) := foldl place_water acc water_coords in
  Ok (from_tiles all_tiles).

End Builder.

(** ** Players, actions and the game state *)

Inductive Color := RED | BLUE | ORANGE | WHITE.

#[global] Instance Color_eq_dec : EqDecision Color.
Proof. solve_decision. Defined.

Definition Color_index (c : Color) : nat :=
  match c with
  | RED => 0
  | BLUE => 1
  | ORANGE => 2
  | WHITE => 3
  end%nat.

#[global] Instance Color_countable : Countable Color.
Proof.
  refine (inj_countable' Color_index
            (λ n, match n with
                  | O => RED
                  | S O => BLUE
                  | S (S O) => ORANGE
                  | _ => WHITE
                  end) _).
  by intros [].
Defined.

Definition Color_name (c : Color) : string :=
  match c with
  | RED => "RED"
  | BLUE => "BLUE"
  | ORANGE => "ORANGE"
  | WHITE => "WHITE"
  end.

(** [Color[name]]. *)
Definition Color_getitem (name : string) : result Color :=
  if decide (name = "RED") then Ok RED
  else if decide (name = "BLUE") then Ok BLUE
  else if decide (name = "ORANGE") then Ok ORANGE
  else if decide (name = "WHITE") then Ok WHITE
  else Raise KeyError.

(** Modelled from the spec: the members of [Color] (declared in
    catanatron.models.player, not in src/) key the response's
    [victory_points{color: points}] by their value, which is their name. *)
Definition Color_value (c : Color) : string := Color_name c.

(** [AlphaBetaPlayer(color, 2, True)]. *)
Record Player := AlphaBetaPlayer {
  player_color : Color;
  player_depth : Z;
  player_prunning : bool;
}.

Inductive BuildingType := SETTLEMENT | CITY.

#[global] Instance BuildingType_eq_dec : EqDecision BuildingType.
Proof. solve_decision. Defined.

(** The prompts of [ActionPrompt]; the advisor names only [PLAY_TURN]. *)
Inductive ActionPrompt :=
  | PLAY_TURN
  | OTHER_PROMPT (name : string).

(** The kinds of [ActionType]: the eleven generate_explanation names, and
    every other member of the enumeration by its name. *)
Inductive ActionType :=
  | END_TURN
  | BUILD_SETTLEMENT
  | BUILD_CITY
  | BUILD_ROAD
  | BUY_DEVELOPMENT_CARD
  | PLAY_KNIGHT_CARD
  | MARITIME_TRADE
  | MOVE_ROBBER
  | PLAY_ROAD_BUILDING
  | PLAY_YEAR_OF_PLENTY
  | PLAY_MONOPOLY
  | OTHER_ACTION (name : string).

(** [action_type.name]. *)
Definition ActionType_name (t : ActionType) : string :=
  match t with
  | END_TURN => "END_TURN"
  | BUILD_SETTLEMENT => "BUILD_SETTLEMENT"
  | BUILD_CITY => "BUILD_CITY"
  | BUILD_ROAD => "BUILD_ROAD"
  | BUY_DEVELOPMENT_CARD => "BUY_DEVELOPMENT_CARD"
  | PLAY_KNIGHT_CARD => "PLAY_KNIGHT_CARD"
  | MARITIME_TRADE => "MARITIME_TRADE"
  | MOVE_ROBBER => "MOVE_ROBBER"
  | PLAY_ROAD_BUILDING => "PLAY_ROAD_BUILDING"
  | PLAY_YEAR_OF_PLENTY => "PLAY_YEAR_OF_PLENTY"
  | PLAY_MONOPOLY => "PLAY_MONOPOLY"
  | OTHER_ACTION name => name
  end.

(** [str(action_type)] of an [Enum] member. *)
Definition ActionType_str (t : ActionType) : string :=
  "ActionType." +:+ ActionType_name t.

(** The payload of an action is an untyped Python value: [None], an integer
    (a node id), a string (a resource) or a tuple of values (an edge, a
    coordinate with a victim, a trade). *)
Inductive Value :=
  | VNone
  | VInt (z : Z)
  | VStr (s : string)
  | VTuple (items : list Value).

Record Action := {
  action_color : Color;
  action_type : ActionType;
  action_value : Value;
}.

(** The truth value of a payload ([if value:]). *)
Definition truthy (v : Value) : bool :=
  match v with
  | VNone => false
  | VInt z => negb (z =? 0)
  | VStr s => negb (bool_decide (s = EmptyString))
  | VTuple items => negb (bool_decide (items = []))
  end.

(** [len(value)]. *)
Definition py_len (v : Value) : result nat :=
  match v with
  | VStr s => Ok (String.length s)
  | VTuple items => Ok (length items)
  | VNone | VInt _ => Raise TypeError
  end.

(** [value[0]]; only evaluated where [len(value) > 0]. *)
Definition py_first (v : Value) : result Value :=
  match v with
  | VStr (String a _) => Ok (VStr (String a EmptyString))
  | VTuple (x :: _) => Ok x
  | _ => Raise TypeError
  end.

Fixpoint string_last (s : string) : option ascii :=
  match s with
  | EmptyString => None
  | String a EmptyString => Some a
  | String _ s' => string_last s'
  end.

(** [value[-1]]; only evaluated where [len(value) > 1]. *)
Definition py_last (v : Value) : result Value :=
  match v with
  | VStr s =>
      match string_last s with
      | Some a => Ok (VStr (String a EmptyString))
      | None => Raise TypeError
      end
  | VTuple items =>
      match last items with
      | Some x => Ok x
      | None => Raise TypeError
      end
  | _ => Raise TypeError
  end.

Record BuildingInfo := {
  b_node_id : Z;
  b_color : string;
  b_building : string;
}.

Record RoadInfo := {
  r_edge_id : Z * Z;
  r_color : string;
}.

Section GameState.
Context {MT : MapTypes}.

Record Board := {
  map : CatanMap;
  buildings : gmap Z (Color * BuildingType);
  roads : gmap (Z * Z) Color;
  board_buildable_ids : gset Z;
  robber_coordinate : Coordinate;
}.

(** The fields of [game.state] the advisor reads or writes. [player_state]
    holds integers; Python's [True] is the integer 1. An entry of
    [buildings_by_color] is a [defaultdict(list)]: a total function. *)
Record State := {
  players : list Player;
  colors : list Color;
  color_to_index : gmap Color nat;
  board : Board;
  buildings_by_color : gmap Color (BuildingType → list Z);
  player_state : gmap string Z;
  current_player_index : nat;
  current_turn_index : nat;
  is_initial_build_phase : bool;
  current_prompt : ActionPrompt;
  playable_actions : list Action;
}.

(** The advisory request ([request.json]); [None] where [data.get] finds no
    key, the empty list where a list or object is absent. *)
Record AdvisorRequest := {
  req_num_players : option Z;
  req_advised_player : option string;
  req_tiles : list TileInfo;
  req_ports : list PortInfo;
  req_buildings : list BuildingInfo;
  req_roads : list RoadInfo;
  req_robber_coordinate : option Coordinate;
  req_player_resources : list (string * Z);
  req_player_dev_cards : list (string * Z);
  req_players_knights : list (string * Z);
}.

(** Field updates. *)
Definition set_buildings (f : gmap Z (Color * BuildingType) → gmap Z (Color * BuildingType))
  (b : Board) : Board :=
  {| map := map b; buildings := f (buildings b); roads := roads b;
     board_buildable_ids := board_buildable_ids b; robber_coordinate := robber_coordinate b |}.

Definition set_roads (f : gmap (Z * Z) Color → gmap (Z * Z) Color) (b : Board) : Board :=
  {| map := map b; buildings := buildings b; roads := f (roads b);
     board_buildable_ids := board_buildable_ids b; robber_coordinate := robber_coordinate b |}.

Definition set_board_buildable_ids (f : gset Z → gset Z) (b : Board) : Board :=
  {| map := map b; buildings := buildings b; roads := roads b;
     board_buildable_ids := f (board_buildable_ids b); robber_coordinate := robber_coordinate b |}.

Definition set_robber_coordinate (c : Coordinate) (b : Board) : Board :=
  {| map := map b; buildings := buildings b; roads := roads b;
     board_buildable_ids := board_buildable_ids b; robber_coordinate := c |}.

Definition set_board (f : Board → Board) (s : State) : State :=
  {| players := players s; colors := colors s; color_to_index := color_to_index s;
     board := f (board s); buildings_by_color := buildings_by_color s;
     player_state := player_state s; current_player_index := current_player_index s;
     current_turn_index := current_turn_index s;
     is_initial_build_phase := is_initial_build_phase s;
     current_prompt := current_prompt s; playable_actions := playable_actions s |}.

Definition set_buildings_by_color
  (f : gmap Color (BuildingType → list Z) → gmap Color (BuildingType → list Z))
  (s : State) : State :=
  {| players := players s; colors := colors s; color_to_index := color_to_index s;
     board := board s; buildings_by_color := f (buildings_by_color s);
     player_state := player_state s; current_player_index := current_player_index s;
     current_turn_index := current_turn_index s;
     is_initial_build_phase := is_initial_build_phase s;
     current_prompt := current_prompt s; playable_actions := playable_actions s |}.

Definition set_player_state (f : gmap string Z → gmap string Z) (s : State) : State :=
  {| players := players s; colors := colors s; color_to_index := color_to_index s;
     board := board s; buildings_by_color := buildings_by_color s;
     player_state := f (player_state s); current_player_index := current_player_index s;
     current_turn_index := current_turn_index s;
     is_initial_build_phase := is_initial_build_phase s;
     current_prompt := current_prompt s; playable_actions := playable_actions s |}.

(** Lines 156-158: the seating the advisor imposes. *)
Definition set_seating (ps : list Player) (cs : list Color) (idx : gmap Color nat)
  (s : State) : State :=
  {| players := ps; colors := cs; color_to_index := idx;
     board := board s; buildings_by_color := buildings_by_color s;
     player_state := player_state s; current_player_index := current_player_index s;
     current_turn_index := current_turn_index s;
     is_initial_build_phase := is_initial_build_phase s;
     current_prompt := current_prompt s; playable_actions := playable_actions s |}.

(** Lines 209-210. *)
Definition set_current_player (i : nat) (s : State) : State :=
  {| players := players s; colors := colors s; color_to_index := color_to_index s;
     board := board s; buildings_by_color := buildings_by_color s;
     player_state := player_state s; current_player_index := i;
     current_turn_index := i;
     is_initial_build_phase := is_initial_build_phase s;
     current_prompt := current_prompt s; playable_actions := playable_actions s |}.

(** Lines 233-234. *)
Definition set_phase (initial : bool) (prompt : ActionPrompt) (s : State) : State :=
  {| players := players s; colors := colors s; color_to_index := color_to_index s;
     board := board s; buildings_by_color := buildings_by_color s;
     player_state := player_state s; current_player_index := current_player_index s;
     current_turn_index := current_turn_index s;
     is_initial_build_phase := initial;
     current_prompt := prompt; playable_actions := playable_actions s |}.

Definition set_playable_actions (acts : list Action) (s : State) : State :=
  {| players := players s; colors := colors s; color_to_index := color_to_index s;
     board := board s; buildings_by_color := buildings_by_color s;
     player_state := player_state s; current_player_index := current_player_index s;
     current_turn_index := current_turn_index s;
     is_initial_build_phase := is_initial_build_phase s;
     current_prompt := current_prompt s; playable_actions := acts |}.

End GameState.

(** The collaborators of the reconstructor and of the endpoint. *)
Class Externals {MT : MapTypes} {ME : MapExternals} := {
  (** [Game(players=players, catan_map=catan_map).state]: the freshly
      initialized state ([None]: the default map). It can raise. *)
  Game_new : list Player → option CatanMap → result State;
  (** [STATIC_GRAPH]: the adjacency of the standard board, node by node. *)
  STATIC_GRAPH : gmap Z (list Z);
  (** [generate_playable_actions(state)]. *)
  generate_playable_actions : State → result (list Action);
  (** [player.decide(game, playable_actions)]. *)
  Player_decide : Player → State → list Action → result Action;
  (** [str(value)], as an f-string formats a payload. *)
  py_str : Value → string;
}.

(** ** The state reconstructor *)

Section Reconstructor.
Context {MT : MapTypes} {ME : MapExternals} {EX : Externals}.

(** [l[:n]], also for a negative [n]. *)
Definition py_slice_to {A : Type} (l : list A) (n : Z) : list A :=
  if decide (0 ≤ n) then take (Z.to_nat n) l
  else take (Z.to_nat (Z.of_nat (length l) + n)) l.

(** [{color: i for i, color in enumerate(colors)}]. *)
Definition index_colors (cs : list Color) : gmap Color nat :=
  foldl (λ m ic, <[ic.2 := ic.1]> m) ∅ (imap (λ i c, (i, c)) cs).

(** Modelled from the spec: [player_key] of catanatron.state_functions (not
    in src/) names the counters of a seat, which the spec keys by player
    identity: the prefix is P followed by the seat's index in
    [color_to_index]. *)
Definition player_key (state : State) (color : Color) : result string :=
  i ← dict_getitem (color_to_index state) color;
  Ok ("P" +:+ pretty i).

(** [d[k] -= n] and [d[k] += n]. *)
Definition dict_isub (d : gmap string Z) (k : string) (n : Z) : result (gmap string Z) :=
  v ← dict_getitem d k;
  Ok (<[k := v - n]> d).

Definition dict_iadd (d : gmap string Z) (k : string) (n : Z) : result (gmap string Z) :=
  v ← dict_getitem d k;
  Ok (<[k := v + n]> d).

(** [STATIC_GRAPH.neighbors(n)]. *)
Definition neighbors (g : gmap Z (list Z)) (n : Z) : result (list Z) :=
  match g !! n with
  | Some ns => Ok ns
  | None => Raise NetworkXError
  end.

(** [set.discard] of each element of a list. *)
Definition discard_all (ns : list Z) (ids : gset Z) : gset Z :=
  foldl (λ ids n, ids ∖ {[n]}) ids ns.

(** [by_type[building_type].append(node_id)] on a [defaultdict(list)]. *)
Definition defaultdict_append (by_type : BuildingType → list Z) (t : BuildingType) (node_id : Z)
  : BuildingType → list Z :=
  λ t', if decide (t' = t) then by_type t' ++ [node_id] else by_type t'.

(** Lines 131-158: the players, the map, the fresh game and its seating. *)
Definition fresh_game (data : AdvisorRequest) : result (State * Color) :=
  let num_players := default 2 (req_num_players data) in
  let advised_player_str := default "RED" (req_advised_player data) in
  advised_color ← Color_getitem advised_player_str;
  let colors := py_slice_to [RED; BLUE; ORANGE; WHITE] num_players in
  let players := (λ color, AlphaBetaPlayer color 2 true) <$> colors in
  catan_map ←
    match req_tiles data with
    | [] => Ok None
    | tiles_data => m ← create_custom_board tiles_data (req_ports data); Ok (Some m)
    end;
  game ← Game_new players catan_map;
  Ok (set_seating players colors (index_colors colors) game, advised_color).

(** The body of the loop over [buildings_data] (lines 162-186). *)
Definition apply_building (game : State) (building_info : BuildingInfo) : result State :=
  let node_id := b_node_id building_info in
  color ← Color_getitem (b_color building_info);
  let building_type :=
    if decide (b_building building_info = "SETTLEMENT") then SETTLEMENT else CITY in
  let game := set_board (set_buildings <[node_id := (color, building_type)]>) game in
  by_type ← dict_getitem (buildings_by_color game) color;
  let game :=
    set_buildings_by_color <[color := defaultdict_append by_type building_type node_id]> game in
  let game := set_board (set_board_buildable_ids (λ ids, ids ∖ {[node_id]})) game in
  ns ← neighbors STATIC_GRAPH node_id;
  let game := set_board (set_board_buildable_ids (discard_all ns)) game in
  p_key ← player_key game color;
  match building_type with
  | SETTLEMENT =>
      ps ← dict_isub (player_state game) (p_key +:+ "_SETTLEMENTS_AVAILABLE") 1;
      ps ← dict_iadd ps (p_key +:+ "_VICTORY_POINTS") 1;
      ps ← dict_iadd ps (p_key +:+ "_ACTUAL_VICTORY_POINTS") 1;
      Ok (set_player_state (λ _, ps) game)
  | CITY =>
      ps ← dict_isub (player_state game) (p_key +:+ "_CITIES_AVAILABLE") 1;
      ps ← dict_iadd ps (p_key +:+ "_VICTORY_POINTS") 2;
      ps ← dict_iadd ps (p_key +:+ "_ACTUAL_VICTORY_POINTS") 2;
      Ok (set_player_state (λ _, ps) game)
  end.

(** The body of the loop over [roads_data] (lines 190-200). *)
Definition apply_road (game : State) (road_info : RoadInfo) : result State :=
  let edge_id := r_edge_id road_info in
  color ← Color_getitem (r_color road_info);
  let game := set_board (set_roads <[edge_id := color]>) game in
  let game := set_board (set_roads <[(edge_id.2, edge_id.1) := color]>) game in
  p_key ← player_key game color;
  ps ← dict_isub (player_state game) (p_key +:+ "_ROADS_AVAILABLE") 1;
  Ok (set_player_state (λ _, ps) game).

(** The body of the loops over [player_resources] and [player_dev_cards]
    (lines 215-217 and 221-223): the guard is [token in table]. *)
Definition set_in_hand {V : Type} (table : gmap string V) (p_key : string)
  (ps : gmap string Z) (entry : string * Z) : gmap string Z :=
  let '(token, count) := entry in
  if dict_contains token table then <[p_key +:+ "_" +:+ token +:+ "_IN_HAND" := count]> ps
  else ps.

(** The body of the loop over [players_knights] (lines 227-230). *)
Definition apply_knights (game : State) (entry : string * Z) : result State :=
  let '(color_str, count) := entry in
  other_color ← Color_getitem color_str;
  other_p_key ← player_key game other_color;
  Ok (set_player_state <[other_p_key +:+ "_PLAYED_KNIGHT" := count]> game).

(** Lines 160-242: the overrides applied to the fresh game. *)
Definition apply_overrides (data : AdvisorRequest) (game : State) (advised_color : Color)
  : result (State * Color) :=
  game ← for_each apply_building (req_buildings data) game;
  game ← for_each apply_road (req_roads data) game;
  let game :=
    match req_robber_coordinate data with
    | Some robber_coord => set_board (set_robber_coordinate robber_coord) game
    | None => game
    end in
  advised_index ← dict_getitem (color_to_index game) advised_color;
  let game := set_current_player advised_index game in
  p_key ← player_key game advised_color;
  let game :=
    set_player_state
      (λ ps, foldl (set_in_hand RESOURCE_MAP p_key) ps (req_player_resources data)) game in
  let game :=
    set_player_state
      (λ ps, foldl (set_in_hand DEV_CARD_MAP p_key) ps (req_player_dev_cards data)) game in
  game ← for_each apply_knights (req_players_knights data) game;
  let game := set_phase false PLAY_TURN game in
  let game := set_player_state <[p_key +:+ "_HAS_ROLLED" := 1]> game in
  acts ← generate_playable_actions game;
  Ok (set_playable_actions acts game, advised_color).

Definition create_game_from_advisor_request (data : AdvisorRequest) : result (State * Color) :=
  '(game, advised_color) ← fresh_game data;
  apply_overrides data game advised_color.

(** ** The endpoint and the explanation generator *)

Definition format_action (action : Action) : string :=
  let action_type := ActionType_name (action_type action) in
  match action_value action with
  | VNone => action_type
  | value => action_type +:+ ": " +:+ py_str value
  end.

Definition calculate_victory_points (game : State) : result (gmap string Z) :=
  for_each
    (λ vps color,
       p_key ← player_key game color;
       vp ← dict_getitem (player_state game) (p_key +:+ "_ACTUAL_VICTORY_POINTS");
       Ok (<[Color_value color := vp]> vps))
    (colors game) ∅.

Definition generate_explanation (action : Action) (game : State) (advised_color : Color)
  : result string :=
  let value := action_value action in
  match action_type action with
  | END_TURN =>
      Ok "End your turn. No better moves available with current resources."
  | BUILD_SETTLEMENT =>
      Ok ("Build a settlement at node " +:+ py_str value
          +:+ ". This expands your resource production.")
  | BUILD_CITY =>
      Ok ("Upgrade settlement at node " +:+ py_str value
          +:+ " to a city. This doubles resource production from that location.")
  | BUILD_ROAD =>
      Ok ("Build a road at edge " +:+ py_str value
          +:+ ". This helps connect settlements and work toward longest road.")
  | BUY_DEVELOPMENT_CARD =>
      Ok "Buy a development card. Development cards provide powerful abilities and potential victory points."
  | PLAY_KNIGHT_CARD =>
      Ok "Play a knight card. This allows you to move the robber and steal a resource."
  | MARITIME_TRADE =>
      if truthy value then
        n ← py_len value;
        give_resource ← (if bool_decide (0 < n)%nat then py_first value else Ok (VStr "resources"));
        n ← py_len value;
        get_resource ← (if bool_decide (1 < n)%nat then py_last value else Ok (VStr "resources"));
        Ok ("Trade " +:+ py_str give_resource +:+ " for " +:+ py_str get_resource
            +:+ " using a port or bank trade.")
      else Ok "Make a maritime/bank trade to get the resources you need."
  | MOVE_ROBBER =>
      if truthy value then
        n ← py_len value;
        coord ← (if bool_decide (0 < n)%nat then py_first value else Ok (VStr "a tile"));
        Ok ("Move the robber to " +:+ py_str coord
            +:+ ". This blocks resource production and lets you steal.")
      else Ok "Move the robber to block an opponent's production."
  | PLAY_ROAD_BUILDING =>
      Ok "Play Road Building card to build two roads for free."
  | PLAY_YEAR_OF_PLENTY =>
      Ok ("Play Year of Plenty to get free resources: " +:+ py_str value)
  | PLAY_MONOPOLY =>
      Ok ("Play Monopoly to take all " +:+ py_str value +:+ " from other players.")
  | OTHER_ACTION _ =>
      Ok ("Recommended action: " +:+ ActionType_str (action_type action))
  end.

(** The JSON object of a 200 response. *)
Record SuccessBody := {
  success : bool;
  resp_action_type : string;
  resp_action_value : Value;
  explanation : string;
  victory_points : gmap string Z;
  all_actions : list string;
}.

Inductive Response :=
  | Abort400 (description : string)
  | Response200 (body : SuccessBody)
  | Response500 (error : Exn).

(** A call of the decision procedure, as the endpoint makes it. *)
Inductive Call :=
  | DecideCall (player : Player) (game : State) (playable_actions : list Action).

(** The body of the [try] of [advisor_endpoint] (lines 272-314), with the
    calls of the decision procedure it made, in order. *)
Definition advise (data : AdvisorRequest) : list Call * result SuccessBody :=
  match create_game_from_advisor_request data with
  | Raise e => ([], Raise e)
  | Ok (game, advised_color) =>
      let playable_actions := playable_actions game in
      if bool_decide (length playable_actions = 0%nat) then
        ([],
         vps ← calculate_victory_points game;
         Ok {| success := true;
               resp_action_type := "NO_ACTIONS";
               resp_action_value := VNone;
               explanation := "No legal actions available in this state.";
               victory_points := vps;
               all_actions := [] |})
      else
        match
          (i ← dict_getitem (color_to_index game) advised_color;
           match players game !! i with
           | Some p => Ok p
           | None => Raise IndexError
           end)
        with
        | Raise e => ([], Raise e)
        | Ok advised_player =>
            ([DecideCall advised_player game playable_actions],
             recommended_action ← Player_decide advised_player game playable_actions;
             let action_type := ActionType_name (action_type recommended_action) in
             explanation ← generate_explanation recommended_action game advised_color;
             vps ← calculate_victory_points game;
             Ok {| success := true;
                   resp_action_type := action_type;
                   resp_action_value := action_value recommended_action;
                   explanation := explanation;
                   victory_points := vps;
                   all_actions := format_action <$> playable_actions |})
        end
  end.

(** [advisor_endpoint]: [None] is a request without a JSON body. *)
Definition advisor_endpoint (body : option AdvisorRequest) : list Call * Response :=
  match body with
  | None => ([], Abort400 "Missing or invalid JSON body")
  | Some data =>
      let '(calls, r) := advise data in
      (calls,
       match r with
       | Ok b => Response200 b
       | Raise e => Response500 e
       end)
  end.

End Reconstructor.


(** ** Notions the properties are stated with *)

(** The strict order [sorted] puts its output in when the keys are distinct. *)
Definition key_lt {A : Type} (key : A → Coordinate) (x y : A) : Prop :=
  coord_lt (key x) (key y).

Section TileNotions.
Context {MT : MapTypes}.

(** The tile a land-tile descriptor is built into (lines 88-93): some id,
    the resource its token maps to, and its number unless it has no token. *)
Definition made_from_tile_info (t : TileInfo) (tile : Tile) : Prop :=
  match tile with
  | LandTile _ resource number _ _ =>
      resource = (r ← tile_resource t; RESOURCE_MAP !! r) ∧
      number = (_ ← tile_resource t; tile_number t)
  | _ => False
  end.

(** The tile a port descriptor is built into (lines 107-109). *)
Definition made_from_port_info (p : PortInfo) (tile : Tile) : Prop :=
  match tile with
  | Port _ resource _ _ _ =>
      resource = (r ← port_resource p; if decide (r = EmptyString) then None else RESOURCE_MAP !! r)
  | _ => False
  end.

(** [inserted coord made ds m m']: the dict [m'] is [m] after one assignment
    [m[coord d] = tile] per descriptor [d] of [ds], in order, each with a
    tile made from [d]. *)
Inductive inserted {D : Type} (coord : D → Coordinate) (made : D → Tile → Prop)
  : list D → gmap Coordinate Tile → gmap Coordinate Tile → Prop :=
  | inserted_nil m : inserted coord made [] m m
  | inserted_cons d tile ds m m' :
      made d tile →
      inserted coord made ds (<[coord d := tile]> m) m' →
      inserted coord made (d :: ds) m m'.

End TileNotions.

(** A port descriptor whose direction, when it is a string, names a member
    of [Direction]: the ports loop raises on the others. *)
Definition direction_known {MT : MapTypes} {ME : MapExternals} (p : PortInfo) : Prop :=
  ∀ s, port_direction p = JStr s → is_Some (Direction_getitem s).

(** The resource names [RESOURCE_MAP] knows. *)
Definition resource_names : list string := ["WOOD"; "BRICK"; "SHEEP"; "WHEAT"; "ORE"].

(** The fixed color ordering of the advisor (line 136). *)
Definition advisor_colors : list Color := [RED; BLUE; ORANGE; WHITE].

(** The key prefix of a color's seat under the advisor's seating: the
    colors are a prefix of [advisor_colors], so a color's index is its rank. *)
Definition seat_key (c : Color) : string := "P" +:+ pretty (Color_index c).

(** [has_suffix suf s]: the string [s] ends with [suf]. *)
Fixpoint has_suffix (suf s : string) : bool :=
  if decide (s = suf) then true
  else
    match s with
    | EmptyString => false
    | String _ s' => has_suffix suf s'
    end.

(** The counters the buildings loop writes, the roads loop writes, and the
    later overrides (hands, knights, dice flag) write. *)
Definition building_key (k : string) : bool :=
  has_suffix "_SETTLEMENTS_AVAILABLE" k || has_suffix "_CITIES_AVAILABLE" k
  || has_suffix "_VICTORY_POINTS" k.

Definition road_key (k : string) : bool := has_suffix "_ROADS_AVAILABLE" k.

Definition late_key (k : string) : bool :=
  has_suffix "_IN_HAND" k || has_suffix "_PLAYED_KNIGHT" k || has_suffix "_HAS_ROLLED" k.

(** The counter [k] exists in [ps] and is [d] more in [ps']. *)
Definition changes_by (d : Z) (k : string) (ps ps' : gmap string Z) : Prop :=
  ∃ v, ps !! k = Some v ∧ ps' !! k = Some (v + d).

(** A payload [len] accepts, or one the [if value:] guards keep from it. *)
Definition payload_sized (v : Value) : Prop :=
  match v with
  | VInt z => z = 0
  | _ => True
  end.

(** The override [b] with its building token replaced. *)
Definition with_building (token : string) (b : BuildingInfo) : BuildingInfo :=
  {| b_node_id := b_node_id b; b_color := b_color b; b_building := token |}.

(** The building kind line 165 reads from an override. *)
Definition building_kind (b : BuildingInfo) : BuildingType :=
  if decide (b_building b = "SETTLEMENT") then SETTLEMENT else CITY.

(** The stock counter a building of a kind is taken from, and its points. *)
Definition stock_suffix (t : BuildingType) : string :=
  match t with
  | SETTLEMENT => "_SETTLEMENTS_AVAILABLE"
  | CITY => "_CITIES_AVAILABLE"
  end.

Definition points (t : BuildingType) : Z :=
  match t with
  | SETTLEMENT => 1
  | CITY => 2
  end.

#[global] Instance Exn_eq_dec : EqDecision Exn.
Proof. solve_decision. Defined.

#[global] Instance result_eq_dec `{EqDecision A} : EqDecision (result A).
Proof. solve_decision. Defined.

(** How many overrides of a list are for color [c] and kind [t]. *)
Definition overrides_of (c : Color) (t : BuildingType) (bs : list BuildingInfo) : Z :=
  Z.of_nat (length (filter (λ b, Color_getitem (b_color b) = Ok c ∧ building_kind b = t) bs)).

(** [hit b c t]: 1 when the override [b] is for color [c] and kind [t]. *)
Definition hit (b : BuildingInfo) (c : Color) (t : BuildingType) : Z :=
  if decide (Color_getitem (b_color b) = Ok c ∧ building_kind b = t) then 1 else 0.

(** How many road overrides of a list are for color [c]. *)
Definition roads_of (c : Color) (rs : list RoadInfo) : Z :=
  Z.of_nat (length (filter (λ r, Color_getitem (r_color r) = Ok c) rs)).

(** The two directional keys of an edge. *)
Definition edge_keys (e : Z * Z) : list (Z * Z) := [e; (e.2, e.1)].

Section StateNotions.
Context {MT : MapTypes} {ME : MapExternals} {EX : Externals}.

(** A state with the seating of lines 156-158 for some number of players. *)
Definition seated (s : State) : Prop :=
  ∃ n : nat,
    colors s = take n advisor_colors ∧
    color_to_index s = index_colors (take n advisor_colors).

(** The vertices the buildings loop discards: each override's vertex and its
    neighbors in [STATIC_GRAPH]. *)
Definition removed_ids (bs : list BuildingInfo) : gset Z :=
  ⋃ ((λ b, {[b_node_id b]} ∪ list_to_set (default [] (STATIC_GRAPH !! b_node_id b))) <$> bs).

(** The request without the hand entries whose token is not recognized. *)
Definition drop_unknown_tokens (data : AdvisorRequest) : AdvisorRequest :=
  {| req_num_players := req_num_players data;
     req_advised_player := req_advised_player data;
     req_tiles := req_tiles data;
     req_ports := req_ports data;
     req_buildings := req_buildings data;
     req_roads := req_roads data;
     req_robber_coordinate := req_robber_coordinate data;
     req_player_resources :=
       filter (λ e, dict_contains e.1 RESOURCE_MAP = true) (req_player_resources data);
     req_player_dev_cards :=
       filter (λ e, dict_contains e.1 DEV_CARD_MAP = true) (req_player_dev_cards data);
     req_players_knights := req_players_knights data |}.

End StateNotions.

(** The names of the members of [Color]. *)
Definition color_names : list string := ["RED"; "BLUE"; "ORANGE"; "WHITE"].

Section RequestNotions.
Context {MT : MapTypes} {ME : MapExternals} {EX : Externals}.

(** The colors a request seats (line 136). *)
Definition requested_colors (data : AdvisorRequest) : list Color :=
  py_slice_to advisor_colors (default 2 (req_num_players data)).

(** A color token that names a seated player of the request. *)
Definition names_seat (data : AdvisorRequest) (token : string) : Prop :=
  ∃ c, Color_getitem token = Ok c ∧ c ∈ requested_colors data.

(** What a successful reconstruction requires of the tokens and vertices of
    a request. *)
Definition overrides_valid (data : AdvisorRequest) : Prop :=
  names_seat data (default "RED" (req_advised_player data)) ∧
  (∀ b, b ∈ req_buildings data →
        names_seat data (b_color b) ∧ is_Some (STATIC_GRAPH !! b_node_id b)) ∧
  (∀ r, r ∈ req_roads data → names_seat data (r_color r)) ∧
  (∀ e, e ∈ req_players_knights data → names_seat data e.1).

(** The count the last entry of a hand override gives a token. *)
Definition last_count (token : string) (l : list (string * Z)) : option Z :=
  snd <$> last (filter (λ e, e.1 = token) l).

End RequestNotions.

(** The names of the development cards [DEV_CARD_MAP] knows. *)
Definition dev_card_names : list string :=
  ["KNIGHT"; "VICTORY_POINT"; "ROAD_BUILDING"; "YEAR_OF_PLENTY"; "MONOPOLY"].
(** ** An instance of the collaborators

    Small stand-ins on which the model runs on concrete requests: an
    allocator that hands out six fresh vertex ids per tile, a six-vertex
    path as the static graph, a rules engine that answers a fixed list of
    legal actions and a player that takes the first one. *)

Inductive Compass := EAST | SOUTHEAST | SOUTHWEST | WEST | NORTHWEST | NORTHEAST.

Definition demo_types : MapTypes :=
  {| Nodes := list Z; Edges := list (Z * Z); Direction := Compass |}.

Definition demo_get_nodes_and_edges (all_tiles : gmap Coordinate (@Tile demo_types))
  (coord : Coordinate) (n : Z) : list Z * list (Z * Z) * Z :=
  ([n; n + 1; n + 2; n + 3; n + 4; n + 5],
   [(n, n + 1); (n + 1, n + 2); (n + 2, n + 3); (n + 3, n + 4); (n + 4, n + 5); (n + 5, n)],
   n + 6).

Definition demo_Direction_getitem (name : string) : option Compass :=
  if decide (name = "EAST") then Some EAST
  else if decide (name = "SOUTHEAST") then Some SOUTHEAST
  else if decide (name = "SOUTHWEST") then Some SOUTHWEST
  else if decide (name = "WEST") then Some WEST
  else if decide (name = "NORTHWEST") then Some NORTHWEST
  else if decide (name = "NORTHEAST") then Some NORTHEAST
  else None.

Definition demo_map_externals : @MapExternals demo_types :=
  {| get_nodes_and_edges := demo_get_nodes_and_edges;
     Direction_getitem := demo_Direction_getitem |}.

(** The counters a fresh seat starts with. *)
Definition demo_initial_counters : list (string * Z) :=
  [("VICTORY_POINTS", 0); ("ROADS_AVAILABLE", 15); ("SETTLEMENTS_AVAILABLE", 5);
   ("CITIES_AVAILABLE", 4); ("HAS_ROLLED", 0); ("ACTUAL_VICTORY_POINTS", 0);
   ("PLAYED_KNIGHT", 0)].

Definition demo_player_state (n : nat) : gmap string Z :=
  foldl (λ ps i,
           foldl (λ ps kv, <["P" +:+ pretty i +:+ "_" +:+ kv.1 := kv.2]> ps)
                 ps demo_initial_counters)
        ∅ (seq 0 n).

Definition demo_Game_new (players : list Player) (catan_map : option (@CatanMap demo_types))
  : result (@State demo_types) :=
  Ok {| players := players;
        colors := player_color <$> players;
        color_to_index := ∅;
        board := {| map := default (from_tiles ∅) catan_map;
                    buildings := ∅;
                    roads := ∅;
                    board_buildable_ids := list_to_set [0; 1; 2; 3; 4; 5];
                    robber_coordinate := (0, 0, 0) |};
        buildings_by_color := list_to_map ((λ p, (player_color p, λ _, [])) <$> players);
        player_state := demo_player_state (length players);
        current_player_index := 0;
        current_turn_index := 0;
        is_initial_build_phase := true;
        current_prompt := OTHER_PROMPT "BUILD_INITIAL_SETTLEMENT";
        playable_actions := [] |}.

Definition demo_STATIC_GRAPH : gmap Z (list Z) :=
  list_to_map [(0, [1]); (1, [0; 2]); (2, [1; 3]); (3, [2; 4]); (4, [3; 5]); (5, [4])].

Definition demo_py_str (v : Value) : string :=
  match v with
  | VNone => "None"
  | VInt z => pretty z
  | VStr s => s
  | VTuple _ => "(...)"
  end.

Definition demo_externals (legal : list Action) : @Externals demo_types demo_map_externals :=
  {| Game_new := demo_Game_new;
     STATIC_GRAPH := demo_STATIC_GRAPH;
     generate_playable_actions := λ _, Ok legal;
     Player_decide := λ _ _ acts, match acts with a :: _ => Ok a | [] => Raise EngineError end;
     py_str := demo_py_str |}.


(** The state [demo_Game_new] answers with. *)
Definition demo_fresh_state (players : list Player) (catan_map : option (@CatanMap demo_types))
  : @State demo_types :=
  {| players := players;
     colors := player_color <$> players;
     color_to_index := ∅;
     board := {| map := default (from_tiles ∅) catan_map;
                 buildings := ∅;
                 roads := ∅;
                 board_buildable_ids := list_to_set [0; 1; 2; 3; 4; 5];
                 robber_coordinate := (0, 0, 0) |};
     buildings_by_color := list_to_map ((λ p, (player_color p, λ _, [])) <$> players);
     player_state := demo_player_state (length players);
     current_player_index := 0;
     current_turn_index := 0;
     is_initial_build_phase := true;
     current_prompt := OTHER_PROMPT "BUILD_INITIAL_SETTLEMENT";
     playable_actions := [] |}.

(** A fresh two-player game with the advisor's seating. *)
Definition demo_seated : @State demo_types :=
  let players := [AlphaBetaPlayer RED 2 true; AlphaBetaPlayer BLUE 2 true] in
  set_seating players [RED; BLUE] (index_colors [RED; BLUE]) (demo_fresh_state players None).

Definition demo_settlement : BuildingInfo :=
  {| b_node_id := 0; b_color := "RED"; b_building := "SETTLEMENT" |}.

Definition demo_town : BuildingInfo :=
  {| b_node_id := 4; b_color := "RED"; b_building := "TOWN" |}.

(** A two-player request on the default map: two settlements and a city of
    RED, a road of RED that BLUE then overrides in the other direction, a
    hand with an unknown resource, and a knight count for BLUE. *)
Definition demo_request : @AdvisorRequest :=
  {| req_num_players := Some 2;
     req_advised_player := Some "RED";
     req_tiles := [];
     req_ports := [];
     req_buildings :=
       [ demo_settlement;
         {| b_node_id := 2; b_color := "RED"; b_building := "SETTLEMENT" |};
         {| b_node_id := 4; b_color := "RED"; b_building := "CITY" |} ];
     req_roads :=
       [ {| r_edge_id := (0, 1); r_color := "RED" |};
         {| r_edge_id := (2, 3); r_color := "RED" |};
         {| r_edge_id := (1, 0); r_color := "BLUE" |} ];
     req_robber_coordinate := Some (1, -1, 0);
     req_player_resources := [("WOOD", 2); ("GOLD", 3); ("WOOD", 1)];
     req_player_dev_cards := [("KNIGHT", 1)];
     req_players_knights := [("BLUE", 2)] |}.

(** The same request with a building of a color that is no member of [Color]. *)
Definition demo_bad_request : @AdvisorRequest :=
  {| req_num_players := Some 2;
     req_advised_player := Some "RED";
     req_tiles := [];
     req_ports := [];
     req_buildings := [ {| b_node_id := 0; b_color := "GREEN"; b_building := "CITY" |} ];
     req_roads := [];
     req_robber_coordinate := None;
     req_player_resources := [];
     req_player_dev_cards := [];
     req_players_knights := [] |}.

Definition demo_end_turn : Action :=
  {| action_color := RED; action_type := END_TURN; action_value := VNone |}.

Definition demo_trade : Action :=
  {| action_color := RED; action_type := MARITIME_TRADE;
     action_value := VTuple [VStr "WOOD"; VStr "WOOD"; VNone; VNone; VStr "ORE"] |}.

(** The game the demo request reconstructs into, with an engine that finds
    no legal action and with one that finds END_TURN. *)
Definition demo_final : @State demo_types :=
  match create_game_from_advisor_request (EX := demo_externals []) demo_request with
  | Ok (g, _) => g
  | Raise _ => demo_seated
  end.

Definition demo_final_turn : @State demo_types :=
  match create_game_from_advisor_request (EX := demo_externals [demo_end_turn]) demo_request with
  | Ok (g, _) => g
  | Raise _ => demo_seated
  end.

(** Whether a run returned. *)
Definition is_Ok {A : Type} (r : result A) : bool :=
  match r with
  | Ok _ => true
  | Raise _ => false
  end.
(** * Properties *)

(** ** The order of the tile descriptors *)

Lemma coord_lt_irrefl (a : Coordinate) : ¬ coord_lt a a.
Proof. unfold coord_lt. lia. Qed.

Lemma coord_lt_trans (a b c : Coordinate) : coord_lt a b → coord_lt b c → coord_lt a c.
Proof. unfold coord_lt. lia. Qed.

Lemma coord_lt_total (a b : Coordinate) : coord_lt a b ∨ a = b ∨ coord_lt b a.
Proof.
  destruct a as [[x1 y1] z1], b as [[x2 y2] z2]. unfold coord_lt. simpl.
  destruct (Z.lt_trichotomy x1 x2) as [?|[->|?]]; [lia| |lia].
  destruct (Z.lt_trichotomy y1 y2) as [?|[->|?]]; [lia| |lia].
  destruct (Z.lt_trichotomy z1 z2) as [?|[->|?]]; [lia| |lia].
  right. by left.
Qed.

Section Sorting.
Context {A : Type} (key : A → Coordinate).

#[local] Instance key_lt_trans : Transitive (key_lt key).
Proof. intros x y z. apply coord_lt_trans. Qed.

#[local] Instance key_lt_antisymm : AntiSymm (=) (key_lt key).
Proof.
  intros x y Hxy Hyx. destruct (coord_lt_irrefl (key x)).
  by apply (coord_lt_trans _ (key y)).
Qed.

Lemma sorted_insert_perm (x : A) (l : list A) : sorted_insert key x l ≡ₚ x :: l.
Proof.
  induction l as [|y l IH]; simpl; [done|].
  case_decide; [|done]. rewrite IH. apply Permutation_swap.
Qed.

Lemma sorted_perm (l : list A) : sorted key l ≡ₚ l.
Proof.
  induction l as [|x l IH]; simpl; [done|].
  rewrite sorted_insert_perm. by rewrite IH.
Qed.

Lemma sorted_insert_HdRel (x y : A) (l : list A) :
  HdRel (key_lt key) y l → key_lt key y x → HdRel (key_lt key) y (sorted_insert key x l).
Proof.
  intros Hhd Hyx. destruct l as [|z l]; simpl; [by constructor|].
  inversion_clear Hhd. case_decide; by constructor.
Qed.

Lemma sorted_insert_Sorted (x : A) (l : list A) :
  Sorted (key_lt key) l → key x ∉ key <$> l → Sorted (key_lt key) (sorted_insert key x l).
Proof.
  induction l as [|y l IH]; simpl; intros Hs Hx.
  - repeat constructor.
  - apply not_elem_of_cons in Hx as [Hne Hx].
    inversion_clear Hs as [|? ? Hs' Hhd].
    case_decide as Hlt.
    + constructor; [by apply IH|]. by apply sorted_insert_HdRel.
    + constructor; [by constructor|]. constructor.
      destruct (coord_lt_total (key x) (key y)) as [?|[?|?]]; done.
Qed.

Lemma sorted_Sorted (l : list A) : NoDup (key <$> l) → Sorted (key_lt key) (sorted key l).
Proof.
  induction l as [|x l IH]; simpl; intros Hnd; [constructor|].
  apply NoDup_cons in Hnd as [Hx Hnd].
  apply sorted_insert_Sorted; [by apply IH|].
  by rewrite sorted_perm.
Qed.

(** With distinct keys, the sorted list does not depend on the order of the
    input. *)
Lemma sorted_unique (l l' : list A) :
  l ≡ₚ l' → NoDup (key <$> l) → sorted key l = sorted key l'.
Proof.
  intros Hp Hnd.
  apply (Sorted_unique (key_lt key)).
  - by apply sorted_Sorted.
  - apply sorted_Sorted. by rewrite <- Hp.
  - by rewrite !sorted_perm.
Qed.

End Sorting.

(** ** The board builder *)

Section BuilderProperties.
Context {MT : MapTypes} {ME : MapExternals}.

Section Inserted.
Context {D : Type} (coord : D → Coordinate) (made : D → Tile → Prop).

Lemma inserted_dom ds m m' c :
  inserted coord made ds m m' →
  is_Some (m' !! c) ↔ is_Some (m !! c) ∨ c ∈ coord <$> ds.
Proof.
  induction 1 as [m|d tile ds m m' Hmade Hins IH]; simpl.
  - rewrite elem_of_nil. tauto.
  - rewrite IH, elem_of_cons, lookup_insert_is_Some.
    destruct (decide (coord d = c)); intuition congruence.
Qed.

Lemma inserted_outside ds m m' c :
  inserted coord made ds m m' → c ∉ coord <$> ds → m' !! c = m !! c.
Proof.
  induction 1 as [m|d tile ds m m' Hmade Hins IH]; simpl; [done|].
  intros [Hne Hnin]%not_elem_of_cons.
  rewrite IH by done. by apply lookup_insert_ne.
Qed.

Lemma inserted_made ds m m' d :
  inserted coord made ds m m' → NoDup (coord <$> ds) → d ∈ ds →
  ∃ tile, m' !! coord d = Some tile ∧ made d tile.
Proof.
  induction 1 as [m|d' tile ds m m' Hmade Hins IH]; simpl.
  - by intros _ ?%elem_of_nil.
  - intros [Hnin Hnd]%NoDup_cons [->|Hin]%elem_of_cons; [|by apply IH].
    exists tile. split; [|done].
    rewrite (inserted_outside _ _ _ _ Hins Hnin). apply lookup_insert_eq.
Qed.

Lemma inserted_Forall (Q : Tile → Prop) ds m m' :
  (∀ d tile, made d tile → Q tile) →
  inserted coord made ds m m' →
  map_Forall (λ _, Q) m → map_Forall (λ _, Q) m'.
Proof.
  intros HQ. induction 1 as [m|d tile ds m m' Hmade Hins IH]; [done|].
  intros Hm. apply IH. apply map_Forall_insert_2; eauto.
Qed.

Lemma inserted_app ds1 ds2 m m1 m2 :
  inserted coord made ds1 m m1 → inserted coord made ds2 m1 m2 →
  inserted coord made (ds1 ++ ds2) m m2.
Proof.
  induction 1; simpl; [done|]. intros. econstructor; eauto.
Qed.

End Inserted.

Lemma place_land_tile_spec acc t :
  ∃ tile n,
    made_from_tile_info t tile ∧
    place_land_tile acc t = (<[tile_coordinate t := tile]> acc.1.1, n, acc.2 + 1).
Proof.
  destruct acc as [[m n] k]. unfold place_land_tile. simpl.
  destruct (get_nodes_and_edges m (tile_coordinate t) n) as [[nodes edges] n'].
  eexists _, n'. split; [|reflexivity].
  destruct (tile_resource t) eqn:Hr; simpl; by rewrite Hr.
Qed.

Lemma land_tiles_inserted l acc :
  inserted tile_coordinate made_from_tile_info l acc.1.1 (foldl place_land_tile acc l).1.1.
Proof.
  revert acc. induction l as [|t l IH]; intros acc; simpl; [constructor|].
  destruct (place_land_tile_spec acc t) as (tile & n & Hmade & Heq).
  econstructor; [done|]. specialize (IH (place_land_tile acc t)).
  by rewrite Heq in IH |- *.
Qed.

Lemma place_port_spec acc p r :
  place_port acc p = Ok r →
  ∃ tile n,
    made_from_port_info p tile ∧ r = (<[port_coordinate p := tile]> acc.1.1, n, acc.2 + 1).
Proof.
  destruct acc as [[m n] k]. unfold place_port. simpl.
  destruct (get_nodes_and_edges m (port_coordinate p) n) as [[nodes edges] n'].
  destruct (port_direction p) as [s|z]; [destruct (Direction_getitem s)|]; simpl;
    intros [=<-]; eexists _, n'; (split; [|reflexivity]);
    destruct (port_resource p) eqn:Hr; simpl; by rewrite Hr.
Qed.

Lemma ports_inserted l acc r :
  for_each place_port l acc = Ok r →
  inserted port_coordinate made_from_port_info l acc.1.1 r.1.1.
Proof.
  revert acc. induction l as [|p l IH]; intros acc; simpl.
  - intros [=<-]. constructor.
  - destruct (place_port acc p) as [acc'|e] eqn:Hp; simpl; [|done].
    intros Hr. apply place_port_spec in Hp as (tile & n & Hmade & ->).
    econstructor; [done|]. by apply IH in Hr.
Qed.

Lemma place_port_total acc p : direction_known p → ∃ r, place_port acc p = Ok r.
Proof.
  intros Hd. destruct acc as [[m n] k]. unfold place_port.
  destruct (get_nodes_and_edges m (port_coordinate p) n) as [[nodes edges] n'].
  destruct (port_direction p) as [s|z] eqn:Hs; simpl; [|by eexists].
  destruct (Hd s Hs) as [d ->]. by eexists.
Qed.

Lemma ports_total l acc : Forall direction_known l → ∃ r, for_each place_port l acc = Ok r.
Proof.
  intros Hl. revert acc. induction Hl as [|p l Hp Hl IH]; intros acc; simpl; [by eexists|].
  destruct (place_port_total acc p Hp) as [r ->]. simpl. apply IH.
Qed.

(** The water loop. *)
Lemma place_water_spec m n c :
  ∃ n', place_water (m, n) c = (m, n') ∧ is_Some (m !! c)
      ∨ ∃ nodes edges, place_water (m, n) c = (<[c := Water nodes edges]> m, n') ∧ m !! c = None.
Proof.
  unfold place_water, dict_contains. case_bool_decide as Hc.
  - exists n. by left.
  - destruct (get_nodes_and_edges m c n) as [[nodes edges] n'].
    exists n'. right. exists nodes, edges. split; [done|].
    by apply eq_None_not_Some.
Qed.

Lemma water_kept l m n c t :
  m !! c = Some t → (foldl place_water (m, n) l).1 !! c = Some t.
Proof.
  revert m n. induction l as [|c' l IH]; intros m n Hc; cbn [foldl fst]; [done|].
  destruct (place_water_spec m n c') as [n' [[-> _]|(nodes & edges & -> & Hnone)]].
  - by apply IH.
  - apply IH. rewrite lookup_insert_ne; [done|]. intros ->. congruence.
Qed.

Lemma water_filled l m n c :
  c ∈ l → m !! c = None →
  ∃ nodes edges, (foldl place_water (m, n) l).1 !! c = Some (Water nodes edges).
Proof.
  revert m n. induction l as [|c' l IH]; intros m n Hin Hc; cbn [foldl fst].
  - by apply elem_of_nil in Hin.
  - destruct (place_water_spec m n c') as [n' [[-> Hsome]|(nodes & edges & -> & Hnone)]].
    + apply elem_of_cons in Hin as [->|Hin]; [|by apply IH].
      rewrite Hc in Hsome. by destruct Hsome.
    + destruct (decide (c = c')) as [->|Hne].
      * exists nodes, edges. apply water_kept. apply lookup_insert_eq.
      * apply elem_of_cons in Hin as [?|Hin]; [done|].
        apply IH; [done|]. by rewrite lookup_insert_ne.
Qed.

Lemma water_dom l m n c :
  is_Some ((foldl place_water (m, n) l).1 !! c) → is_Some (m !! c) ∨ c ∈ l.
Proof.
  revert m n. induction l as [|c' l IH]; intros m n; cbn [foldl fst]; [by left|].
  destruct (place_water_spec m n c') as [n' [[-> _]|(nodes & edges & -> & Hnone)]];
    intros [Hs|Hin]%IH.
  - by left.
  - right. by right.
  - apply lookup_insert_is_Some in Hs as [->|[_ Hs]]; [right; by left|by left].
  - right. by right.
Qed.

Lemma water_coords_sum c : c ∈ water_coords → coord_sum c = 0.
Proof.
  unfold water_coords. rewrite !elem_of_cons, elem_of_nil.
  intros H. repeat (destruct H as [->|H]; [reflexivity|]). done.
Qed.

(** What [placed_tiles] returns: the land tiles, assigned in sorted order,
    then the ports. *)
Lemma placed_tiles_inserted tiles_data ports_data m n :
  placed_tiles tiles_data ports_data = Ok (m, n) →
  ∃ m1,
    inserted tile_coordinate made_from_tile_info (sorted tile_coordinate tiles_data) ∅ m1 ∧
    inserted port_coordinate made_from_port_info ports_data m1 m.
Proof.
  unfold placed_tiles.
  pose proof (land_tiles_inserted (sorted tile_coordinate tiles_data) (∅, 0, 0)) as Hland.
  destruct (foldl place_land_tile (∅, 0, 0) (sorted tile_coordinate tiles_data))
    as [[m1 n1] k1].
  destruct (for_each place_port ports_data (m1, n1, 0)) as [[[m2 n2] k2]|e] eqn:Hports;
    simpl; [|done].
  intros [= <- <-]. exists m1. split; [done|].
  by apply ports_inserted in Hports.
Qed.

Lemma placed_tiles_total tiles_data ports_data :
  Forall direction_known ports_data → ∃ r, placed_tiles tiles_data ports_data = Ok r.
Proof.
  intros Hd. unfold placed_tiles.
  destruct (foldl place_land_tile (∅, 0, 0) (sorted tile_coordinate tiles_data))
    as [[m1 n1] k1].
  destruct (ports_total ports_data (m1, n1, 0) Hd) as [[[m2 n2] k2] ->]. simpl.
  by eexists.
Qed.

Lemma placed_tiles_dom tiles_data ports_data m n c :
  placed_tiles tiles_data ports_data = Ok (m, n) →
  is_Some (m !! c) ↔
    c ∈ tile_coordinate <$> tiles_data ∨ c ∈ port_coordinate <$> ports_data.
Proof.
  intros (m1 & Hland & Hports)%placed_tiles_inserted.
  rewrite (inserted_dom _ _ _ _ _ c Hports), (inserted_dom _ _ _ _ _ c Hland).
  rewrite lookup_empty, is_Some_alt, (sorted_perm tile_coordinate tiles_data). tauto.
Qed.

Lemma placed_tiles_not_water tiles_data ports_data m n c t :
  placed_tiles tiles_data ports_data = Ok (m, n) →
  m !! c = Some t → is_water t = false.
Proof.
  intros (m1 & Hland & Hports)%placed_tiles_inserted.
  revert c t. change (map_Forall (λ _ t, is_water t = false) m).
  eapply inserted_Forall; [|done|].
  - by intros p [].
  - eapply inserted_Forall; [|done|apply map_Forall_empty]. by intros d [].
Qed.

End BuilderProperties.

Section BuilderClaims.
Context {MT : MapTypes} {ME : MapExternals}.

Lemma Ok_inj {A : Type} (a b : A) : Ok a = Ok b → a = b.
Proof. by intros [=]. Qed.

Lemma create_custom_board_unfold tiles_data ports_data :
  create_custom_board tiles_data ports_data
  = acc ← placed_tiles tiles_data ports_data;
    Ok (from_tiles (foldl place_water acc water_coords).1).
Proof.
  unfold create_custom_board.
  destruct (placed_tiles tiles_data ports_data) as [acc|e]; [|reflexivity].
  unfold mbind, result_bind. by destruct (foldl place_water acc water_coords).
Qed.

Lemma RESOURCE_MAP_unknown (r : string) : r ∉ resource_names → RESOURCE_MAP !! r = None.
Proof.
  unfold resource_names. rewrite !not_elem_of_cons. intros (? & ? & ? & ? & ? & _).
  unfold RESOURCE_MAP. simpl. by rewrite !lookup_insert_ne, lookup_empty.
Qed.

(** C3. After [create_custom_board] returns, each of the 18 outer-ring
    coordinates is mapped to a tile; a ring coordinate that no land-tile or
    port descriptor of the caller names is mapped to a [Water] tile; a tile
    the caller's descriptors put at a coordinate ([all_tiles] below, the dict
    before the water loop) is still there and is no [Water] tile; and when the
    caller's coordinates sum to zero, so does every coordinate of the map. *)
Theorem create_custom_board_fills_ring tiles_data ports_data board :
  create_custom_board tiles_data ports_data = Ok board →
  (length water_coords = 18%nat ∧ NoDup water_coords) ∧
  (∀ c, c ∈ water_coords → is_Some (tiles board !! c)) ∧
  (∀ c, c ∈ water_coords →
        c ∉ tile_coordinate <$> tiles_data → c ∉ port_coordinate <$> ports_data →
        ∃ nodes edges, tiles board !! c = Some (Water nodes edges)) ∧
  (∃ all_tiles node_autoinc,
      placed_tiles tiles_data ports_data = Ok (all_tiles, node_autoinc) ∧
      (∀ c, is_Some (all_tiles !! c) ↔
            c ∈ tile_coordinate <$> tiles_data ∨ c ∈ port_coordinate <$> ports_data) ∧
      (∀ c t, all_tiles !! c = Some t → is_water t = false ∧ tiles board !! c = Some t)) ∧
  ((∀ c, c ∈ tile_coordinate <$> tiles_data ∨ c ∈ port_coordinate <$> ports_data →
         coord_sum c = 0) →
   ∀ c, is_Some (tiles board !! c) → coord_sum c = 0).
Proof.
  rewrite create_custom_board_unfold.
  destruct (placed_tiles tiles_data ports_data) as [[m n]|e] eqn:Hplaced; [|done].
  unfold mbind, result_bind. intros Hboard.
  assert (tiles board = (foldl place_water (m, n) water_coords).1) as Hm'.
  { apply Ok_inj in Hboard. by rewrite <- Hboard. }
  clear Hboard. revert Hm'. generalize (tiles board). intros m' Hm'.
  pose proof (λ c, placed_tiles_dom _ _ _ _ c Hplaced) as Hdom.
  assert (∀ c, c ∈ water_coords → m !! c = None →
               ∃ nodes edges, m' !! c = Some (Water nodes edges)) as Hfill.
  { intros c Hc Hnone. rewrite Hm'. by apply water_filled. }
  split; [split; [reflexivity|by apply (bool_decide_unpack _)]|].
  split; [|split; [|split]].
  - intros c Hc. destruct (m !! c) as [t|] eqn:Hmc.
    + exists t. rewrite Hm'. by apply water_kept.
    + destruct (Hfill c Hc Hmc) as (nodes & edges & ->). by eexists.
  - intros c Hc Ht Hp. apply Hfill; [done|].
    apply eq_None_not_Some. rewrite Hdom. tauto.
  - exists m, n. split; [done|]. split; [done|].
    intros c t Hmc. split; [by eapply placed_tiles_not_water|].
    rewrite Hm'. by apply water_kept.
  - intros Hsum c Hc. rewrite Hm' in Hc. apply water_dom in Hc as [Hc|Hc].
    + apply Hsum. by apply Hdom.
    + by apply water_coords_sum.
Qed.

(** C4. [create_custom_board] does not depend on the order of the land-tile
    descriptors: for descriptors with distinct coordinates, a permutation of
    [tiles_data] (with the same [ports_data]) gives the same result, the same
    tile dict with the same vertex and edge identifiers. *)
Theorem create_custom_board_permutation tiles_data tiles_data' ports_data :
  tiles_data ≡ₚ tiles_data' →
  NoDup (tile_coordinate <$> tiles_data) →
  create_custom_board tiles_data' ports_data = create_custom_board tiles_data ports_data.
Proof.
  intros Hperm Hnd. unfold create_custom_board, placed_tiles.
  by rewrite (sorted_unique tile_coordinate tiles_data tiles_data' Hperm Hnd).
Qed.

(** C5, as amended. A resource token that is not one of the five resource
    names raises nothing: when every port direction is known the board is
    built, and (coordinates being distinct) the tile of a descriptor with
    such a token carries the resource [None]; a land tile keeps its number. *)
Theorem create_custom_board_unknown_resource tiles_data ports_data :
  Forall direction_known ports_data →
  NoDup ((tile_coordinate <$> tiles_data) ++ (port_coordinate <$> ports_data)) →
  ∃ board,
    create_custom_board tiles_data ports_data = Ok board ∧
    (∀ t r, t ∈ tiles_data → tile_resource t = Some r → r ∉ resource_names →
       ∃ id nodes edges,
         tiles board !! tile_coordinate t
         = Some (LandTile id None (tile_number t) nodes edges)) ∧
    (∀ p r, p ∈ ports_data → port_resource p = Some r → r ∉ resource_names →
       ∃ id direction nodes edges,
         tiles board !! port_coordinate p = Some (Port id None direction nodes edges)).
Proof.
  intros Hdir [Hnd_t [Hdisj Hnd_p]]%NoDup_app.
  destruct (placed_tiles_total tiles_data ports_data Hdir) as [[m n] Hplaced].
  destruct (placed_tiles_inserted _ _ _ _ Hplaced) as (m1 & Hland & Hports).
  rewrite create_custom_board_unfold, Hplaced. unfold mbind, result_bind.
  eexists. split; [reflexivity|].
  assert (∀ c t, m !! c = Some t →
     tiles (from_tiles (foldl place_water (m, n) water_coords).1) !! c = Some t) as Hkept.
  { intros c t Hc. by apply water_kept. }
  revert Hkept. generalize (from_tiles (foldl place_water (m, n) water_coords).1).
  intros board Hkept. split.
  - intros t r Ht Hr Hunknown.
    assert (t ∈ sorted tile_coordinate tiles_data) as Ht' by (by rewrite sorted_perm).
    destruct (inserted_made _ _ _ _ _ t Hland) as (tile & Hm1 & Hmade); [|done|].
    { by rewrite (sorted_perm tile_coordinate tiles_data). }
    destruct tile as [id resource number nodes edges| |]; simpl in Hmade; try done.
    destruct Hmade as [-> ->]. rewrite Hr in Hm1. simpl in Hm1.
    rewrite (RESOURCE_MAP_unknown r Hunknown) in Hm1.
    exists id, nodes, edges. apply Hkept.
    rewrite (inserted_outside _ _ _ _ _ _ Hports); [done|].
    apply Hdisj. by apply list_elem_of_fmap_2.
  - intros p r Hp Hr Hunknown.
    destruct (inserted_made _ _ _ _ _ p Hports) as (tile & Hm & Hmade); [done..|].
    destruct tile as [|id resource direction nodes edges|]; simpl in Hmade; try done.
    rewrite Hr in Hmade. simpl in Hmade.
    rewrite (RESOURCE_MAP_unknown r Hunknown) in Hmade.
    exists id, direction, nodes, edges. apply Hkept.
    rewrite Hm. f_equal. rewrite Hmade. by case_decide.
Qed.

End BuilderClaims.

(** The three theorems on a request: a desert at the centre, a forest, a
    tile whose resource token is unknown, and a port on the ring. *)
Definition demo_tiles : list TileInfo :=
  [ {| tile_coordinate := (1, -1, 0); tile_resource := Some "WOOD"; tile_number := Some 6 |};
    {| tile_coordinate := (0, 0, 0); tile_resource := None; tile_number := None |};
    {| tile_coordinate := (-1, 1, 0); tile_resource := Some "GOLD"; tile_number := Some 5 |} ].

Definition demo_ports : list PortInfo :=
  [ {| port_coordinate := (3, -3, 0); port_direction := JStr "WEST";
       port_resource := Some "SPICE" |} ].

Lemma create_custom_board_fills_ring_witness :
  ∃ board,
    create_custom_board (ME := demo_map_externals) demo_tiles demo_ports = Ok board ∧
    ∀ c, c ∈ water_coords → is_Some (tiles board !! c).
Proof.
  destruct (create_custom_board (ME := demo_map_externals) demo_tiles demo_ports)
    as [board|e] eqn:Hb; [|by vm_compute in Hb].
  exists board. split; [done|].
  apply (create_custom_board_fills_ring demo_tiles demo_ports board Hb).
Defined.

Lemma create_custom_board_permutation_witness :
  create_custom_board (ME := demo_map_externals) (reverse demo_tiles) demo_ports
  = create_custom_board (ME := demo_map_externals) demo_tiles demo_ports.
Proof.
  apply (create_custom_board_permutation demo_tiles (reverse demo_tiles) demo_ports).
  - symmetry. apply reverse_Permutation.
  - apply (bool_decide_unpack _). by vm_compute.
Defined.

Lemma create_custom_board_unknown_resource_witness :
  ∃ board,
    create_custom_board (ME := demo_map_externals) demo_tiles demo_ports = Ok board ∧
    (∃ id nodes edges,
        tiles board !! (-1, 1, 0) = Some (LandTile id None (Some 5) nodes edges)) ∧
    (∃ id direction nodes edges,
        tiles board !! (3, -3, 0) = Some (Port id None direction nodes edges)).
Proof.
  destruct (create_custom_board_unknown_resource (ME := demo_map_externals)
              demo_tiles demo_ports) as (board & Hboard & Hland & Hport).
  - repeat constructor. intros s [= <-]. by exists WEST.
  - apply (bool_decide_unpack _). by vm_compute.
  - exists board. split; [done|]. split.
    + apply (Hland {| tile_coordinate := (-1, 1, 0); tile_resource := Some "GOLD";
                      tile_number := Some 5 |} "GOLD"); [|done|].
      * unfold demo_tiles. rewrite !elem_of_cons. auto.
      * apply (bool_decide_unpack _). by vm_compute.
    + apply (Hport {| port_coordinate := (3, -3, 0); port_direction := JStr "WEST";
                      port_resource := Some "SPICE" |} "SPICE"); [|done|].
      * unfold demo_ports. rewrite !elem_of_cons. auto.
      * apply (bool_decide_unpack _). by vm_compute.
Defined.

(** C5, as stated, fails: the token GOLD is no resource name, and the board is
    built, with a land tile at the descriptor's coordinate whose resource is
    [None] and whose number is the descriptor's. *)
Lemma unknown_resource_is_defaulted :
  (λ board, tiles board !! (-1, 1, 0))
    <$> create_custom_board (ME := demo_map_externals) demo_tiles demo_ports
  = Ok (Some (LandTile (MT := demo_types) 0 None (Some 5) [0; 1; 2; 3; 4; 5]
                [(0, 1); (1, 2); (2, 3); (3, 4); (4, 5); (5, 0)])).
Proof. vm_compute. reflexivity. Qed.

(** ** More about the board builder *)

Section BuilderExtras.
Context {MT : MapTypes} {ME : MapExternals}.

(** The coordinates of the built map are those of the caller's land tiles
    and ports and the 18 ring coordinates, and no other. *)
Theorem create_custom_board_domain tiles_data ports_data board c :
  create_custom_board tiles_data ports_data = Ok board →
  is_Some (tiles board !! c) ↔
    c ∈ tile_coordinate <$> tiles_data ∨ c ∈ port_coordinate <$> ports_data ∨
    c ∈ water_coords.
Proof.
  rewrite create_custom_board_unfold.
  destruct (placed_tiles tiles_data ports_data) as [[m n]|e] eqn:Hplaced; [|done].
  unfold mbind, result_bind. intros Hboard%Ok_inj. rewrite <- Hboard. cbn [tiles].
  pose proof (placed_tiles_dom _ _ _ _ c Hplaced) as Hdom.
  split.
  - intros [Hm|Hring]%water_dom; [apply Hdom in Hm; tauto|tauto].
  - intros Hc. destruct (m !! c) as [t|] eqn:Hmc.
    + exists t. by apply water_kept.
    + destruct Hc as [Hc|[Hc|Hc]].
      * by destruct (proj2 Hdom (or_introl Hc)).
      * by destruct (proj2 Hdom (or_intror Hc)).
      * destruct (water_filled water_coords m n c Hc Hmc) as (nodes & edges & ->).
        by eexists.
Qed.




(** With distinct coordinates, the tile at a land descriptor's coordinate is
    a land tile with the resource its token maps to in [RESOURCE_MAP] and
    its number; a descriptor without a resource token gives a desert, whose
    number is dropped even when the descriptor has one. *)
Theorem create_custom_board_land_tile tiles_data ports_data board t :
  create_custom_board tiles_data ports_data = Ok board →
  NoDup ((tile_coordinate <$> tiles_data) ++ (port_coordinate <$> ports_data)) →
  t ∈ tiles_data →
  ∃ id nodes edges,
    tiles board !! tile_coordinate t
    = Some (LandTile id
              (match tile_resource t with
               | Some token => RESOURCE_MAP !! token
               | None => None
               end)
              (match tile_resource t with
               | Some _ => tile_number t
               | None => None
               end)
              nodes edges).
Proof.
  rewrite create_custom_board_unfold.
  destruct (placed_tiles tiles_data ports_data) as [[m n]|e] eqn:Hplaced; [|done].
  unfold mbind, result_bind. intros Hboard%Ok_inj. rewrite <- Hboard. cbn [tiles].
  intros [Hnd_t [Hdisj Hnd_p]]%NoDup_app Ht.
  destruct (placed_tiles_inserted _ _ _ _ Hplaced) as (m1 & Hland & Hports).
  destruct (inserted_made _ _ _ _ _ t Hland) as (tile & Hm1 & Hmade).
  { by rewrite (sorted_perm tile_coordinate tiles_data). }
  { by rewrite sorted_perm. }
  destruct tile as [id resource number nodes edges| |]; simpl in Hmade; try done.
  destruct Hmade as [-> ->].
  exists id, nodes, edges. apply water_kept.
  rewrite (inserted_outside _ _ _ _ _ _ Hports).
  - rewrite Hm1. by destruct (tile_resource t).
  - apply Hdisj. by apply list_elem_of_fmap_2.
Qed.

End BuilderExtras.

Lemma demo_board_built :
  ∃ board, create_custom_board (ME := demo_map_externals) demo_tiles demo_ports = Ok board.
Proof.
  assert (is_Ok (create_custom_board (ME := demo_map_externals) demo_tiles demo_ports)
          = true) as Hok by (vm_compute; reflexivity).
  destruct (create_custom_board (ME := demo_map_externals) demo_tiles demo_ports)
    as [board|e]; [by exists board|done].
Qed.

Lemma create_custom_board_domain_witness :
  ∃ board,
    create_custom_board (ME := demo_map_externals) demo_tiles demo_ports = Ok board ∧
    is_Some (tiles board !! (0, 3, -3)) ∧ tiles board !! (2, 0, -2) = None.
Proof.
  destruct demo_board_built as (board & Hboard).
  exists board. split; [done|]. split.
  - apply (create_custom_board_domain demo_tiles demo_ports board (0, 3, -3) Hboard).
    right. right. apply (bool_decide_unpack _). by vm_compute.
  - apply eq_None_not_Some.
    rewrite (create_custom_board_domain demo_tiles demo_ports board (2, 0, -2) Hboard).
    intros [H|[H|H]]; revert H; apply (bool_decide_unpack _); by vm_compute.
Defined.



Lemma create_custom_board_land_tile_witness :
  ∃ board id nodes edges,
    create_custom_board (ME := demo_map_externals) demo_tiles demo_ports = Ok board ∧
    tiles board !! (1, -1, 0) = Some (LandTile id (Some WOOD) (Some 6) nodes edges).
Proof.
  destruct demo_board_built as (board & Hboard).
  destruct (create_custom_board_land_tile demo_tiles demo_ports board
              {| tile_coordinate := (1, -1, 0); tile_resource := Some "WOOD";
                 tile_number := Some 6 |} Hboard) as (id & nodes & edges & Htile).
  - apply (bool_decide_unpack _). by vm_compute.
  - by left.
  - by exists board, id, nodes, edges.
Defined.

(** ** Keys of the player state *)

Lemma append_inj_l (a x y : string) : a +:+ x = a +:+ y → x = y.
Proof. induction a as [|ch a IH]; simpl; [done|]. intros [=]. auto. Qed.

Lemma has_suffix_refl (suf : string) : has_suffix suf suf = true.
Proof. destruct suf; cbn [has_suffix]; by case_decide. Qed.

Lemma has_suffix_app_r (suf a b : string) :
  has_suffix suf b = true → has_suffix suf (a +:+ b) = true.
Proof.
  intros Hb. induction a as [|ch a IH]; [done|].
  change (String ch a +:+ b) with (String ch (a +:+ b)).
  cbn [has_suffix]. by case_decide.
Qed.

Lemma has_suffix_app (suf a : string) : has_suffix suf (a +:+ suf) = true.
Proof. apply has_suffix_app_r, has_suffix_refl. Qed.

Lemma seat_key_eq (c : Color) :
  seat_key c = match c with RED => "P0" | BLUE => "P1" | ORANGE => "P2" | WHITE => "P3" end.
Proof. by destruct c. Qed.

Lemma seat_key_inj (c c' : Color) (x y : string) :
  seat_key c +:+ x = seat_key c' +:+ y → c = c' ∧ x = y.
Proof.
  rewrite !seat_key_eq. destruct c, c'; simpl; intros [=]; done.
Qed.

Lemma seat_key_ne (c c' : Color) (x y : string) :
  c ≠ c' → seat_key c +:+ x ≠ seat_key c' +:+ y.
Proof. intros Hne Heq. by apply seat_key_inj in Heq as [? _]. Qed.

(** ** Dict updates *)

Lemma insert_as_alter (d : gmap string Z) (k : string) (v : Z) (f : Z → Z) :
  d !! k = Some v → <[k := f v]> d = alter f k d.
Proof.
  intros Hk. apply map_eq. intros j. rewrite lookup_alter, lookup_insert.
  case_decide; [subst; by rewrite Hk|done].
Qed.

Lemma dict_isub_inv d k n d' :
  dict_isub d k n = Ok d' → is_Some (d !! k) ∧ d' = alter (λ v, v - n) k d.
Proof.
  unfold dict_isub, dict_getitem. destruct (d !! k) as [v|] eqn:Hk; simpl; [|done].
  intros [= <-]. split; [by eexists|]. by apply (insert_as_alter d k v (λ v, v - n)).
Qed.

Lemma dict_iadd_inv d k n d' :
  dict_iadd d k n = Ok d' → is_Some (d !! k) ∧ d' = alter (λ v, v + n) k d.
Proof.
  unfold dict_iadd, dict_getitem. destruct (d !! k) as [v|] eqn:Hk; simpl; [|done].
  intros [= <-]. split; [by eexists|]. by apply (insert_as_alter d k v (λ v, v + n)).
Qed.

Lemma discard_all_difference (ns : list Z) (ids : gset Z) :
  discard_all ns ids = ids ∖ list_to_set ns.
Proof.
  unfold discard_all. revert ids. induction ns as [|n ns IH]; intros ids; simpl.
  - set_solver.
  - rewrite IH. set_solver.
Qed.

(** Resolves the [decide (k = k')] a lookup under [alter] leaves, for keys
    built from seat prefixes and literal suffixes. *)
Ltac decide_keys :=
  repeat match goal with
  | |- context [decide (?a = ?b)] =>
      let Hk := fresh "Hk" in
      destruct (decide (a = b)) as [Hk|Hk];
      [ first [ exfalso; apply append_inj_l in Hk; discriminate Hk
              | exfalso; apply seat_key_inj in Hk as [? ?]; congruence
              | idtac ]
      | try (exfalso; apply Hk; reflexivity) ]
  end.

(** ** The reconstructor, step by step *)

Section ReconstructorProperties.
Context {MT : MapTypes} {ME : MapExternals} {EX : Externals}.

Lemma take_advisor_colors (n : nat) :
  ∃ j, (j ≤ 4)%nat ∧ take n advisor_colors = take j advisor_colors.
Proof.
  do 4 (destruct n as [|n]; [eexists; split; [|reflexivity]; lia|]).
  exists 4%nat. split; [lia|by destruct n].
Qed.

Lemma seated_lookup (s : State) (c : Color) :
  seated s →
  color_to_index s !! c = if decide (c ∈ colors s) then Some (Color_index c) else None.
Proof.
  intros (n & -> & ->). destruct (take_advisor_colors n) as (j & Hj & ->).
  do 5 (destruct j as [|j]; [by destruct c; vm_compute|]). lia.
Qed.

Lemma player_key_seated (s : State) (c : Color) (pk : string) :
  seated s → player_key s c = Ok pk → pk = seat_key c ∧ c ∈ colors s.
Proof.
  intros Hs. unfold player_key, dict_getitem. rewrite (seated_lookup s c Hs).
  case_decide; simpl; [|done]. by intros [= <-].
Qed.

Lemma player_key_colors (s : State) (c : Color) :
  seated s → c ∈ colors s → player_key s c = Ok (seat_key c).
Proof.
  intros Hs Hc. unfold player_key, dict_getitem. rewrite (seated_lookup s c Hs).
  by rewrite decide_True.
Qed.

Lemma lookup_alter_is_Some (f : Z → Z) (k j : string) (m : gmap string Z) :
  is_Some (alter f k m !! j) ↔ is_Some (m !! j).
Proof. rewrite lookup_alter. case_decide; subst; [apply fmap_is_Some|done]. Qed.

(** What one building override does, field by field. *)
Lemma apply_building_inv (s : State) (b : BuildingInfo) (s' : State) :
  apply_building s b = Ok s' →
  ∃ c i ns,
    Color_getitem (b_color b) = Ok c ∧
    color_to_index s !! c = Some i ∧
    STATIC_GRAPH !! b_node_id b = Some ns ∧
    let pk := "P" +:+ pretty i in
    let t := building_kind b in
    is_Some (player_state s !! (pk +:+ stock_suffix t)) ∧
    is_Some (player_state s !! (pk +:+ "_VICTORY_POINTS")) ∧
    is_Some (player_state s !! (pk +:+ "_ACTUAL_VICTORY_POINTS")) ∧
    players s' = players s ∧ colors s' = colors s ∧
    color_to_index s' = color_to_index s ∧
    buildings (board s') = <[b_node_id b := (c, t)]> (buildings (board s)) ∧
    roads (board s') = roads (board s) ∧
    board_buildable_ids (board s')
      = board_buildable_ids (board s) ∖ ({[b_node_id b]} ∪ list_to_set ns) ∧
    player_state s'
      = alter (λ v, v + points t) (pk +:+ "_ACTUAL_VICTORY_POINTS")
          (alter (λ v, v + points t) (pk +:+ "_VICTORY_POINTS")
             (alter (λ v, v - 1) (pk +:+ stock_suffix t) (player_state s))).
Proof.
  unfold apply_building, building_kind.
  destruct (Color_getitem (b_color b)) as [c|] eqn:Hc; simpl; [|done].
  unfold dict_getitem at 1. simpl.
  destruct (buildings_by_color s !! c) as [by_type|] eqn:Hby; simpl; [|done].
  unfold neighbors. destruct (STATIC_GRAPH !! b_node_id b) as [ns|] eqn:Hns; simpl; [|done].
  unfold player_key, dict_getitem at 1. simpl.
  destruct (color_to_index s !! c) as [i|] eqn:Hi; simpl; [|done].
  intros Hs'. exists c, i, ns. do 3 (split; [done|]).
  destruct (decide (b_building b = "SETTLEMENT")) as [Hk|Hk]; simpl in *.
  all: match type of Hs' with (mbind _ ?m = _) => destruct m as [ps1|] eqn:H1 end;
       simpl in Hs'; [|done];
       match type of Hs' with (mbind _ ?m = _) => destruct m as [ps2|] eqn:H2 end;
       simpl in Hs'; [|done];
       match type of Hs' with (mbind _ ?m = _) => destruct m as [ps3|] eqn:H3 end;
       simpl in Hs'; [|done];
       injection Hs' as <-; simpl;
       apply dict_isub_inv in H1 as [Hs1 ->];
       apply dict_iadd_inv in H2 as [Hs2 ->];
       apply dict_iadd_inv in H3 as [Hs3 ->];
       rewrite !lookup_alter_is_Some in Hs3; rewrite lookup_alter_is_Some in Hs2;
       repeat (split; [done|]);
       (split; [|done]);
       rewrite discard_all_difference; set_solver.
Qed.

Lemma fmap_sub_0 (x : option Z) : (λ v, v - 0) <$> x = x.
Proof. destruct x; simpl; f_equal; lia. Qed.

Lemma fmap_add_0 (x : option Z) : (λ v, v + 0) <$> x = x.
Proof. destruct x; simpl; f_equal; lia. Qed.

Lemma overrides_of_cons c t b bs :
  overrides_of c t (b :: bs) = hit b c t + overrides_of c t bs.
Proof.
  unfold overrides_of, hit. rewrite filter_cons.
  case_decide; simpl length; lia.
Qed.

Lemma apply_building_seat (s : State) (b : BuildingInfo) (s' : State) :
  seated s → apply_building s b = Ok s' →
  ∃ c ns,
    Color_getitem (b_color b) = Ok c ∧ c ∈ colors s ∧
    STATIC_GRAPH !! b_node_id b = Some ns ∧
    let t := building_kind b in
    is_Some (player_state s !! (seat_key c +:+ stock_suffix t)) ∧
    is_Some (player_state s !! (seat_key c +:+ "_VICTORY_POINTS")) ∧
    is_Some (player_state s !! (seat_key c +:+ "_ACTUAL_VICTORY_POINTS")) ∧
    buildings (board s') = <[b_node_id b := (c, t)]> (buildings (board s)) ∧
    player_state s'
      = alter (λ v, v + points t) (seat_key c +:+ "_ACTUAL_VICTORY_POINTS")
          (alter (λ v, v + points t) (seat_key c +:+ "_VICTORY_POINTS")
             (alter (λ v, v - 1) (seat_key c +:+ stock_suffix t) (player_state s))).
Proof.
  intros Hseated (c & i & ns & Hc & Hi & Hns & H)%apply_building_inv.
  rewrite (seated_lookup s c Hseated) in Hi. case_decide as Hin; [|done].
  injection Hi as <-. fold (seat_key c) in H. cbv zeta in H.
  destruct H as (? & ? & ? & _ & _ & _ & ? & _ & _ & ?).
  exists c, ns. by repeat split.
Qed.

(** The counters of a color's seat after one building override. *)
Lemma apply_building_counters (s : State) (b : BuildingInfo) (s' : State) (c : Color) :
  seated s → apply_building s b = Ok s' →
  (∀ t, player_state s' !! (seat_key c +:+ stock_suffix t)
        = (λ v, v - hit b c t) <$> player_state s !! (seat_key c +:+ stock_suffix t)) ∧
  player_state s' !! (seat_key c +:+ "_VICTORY_POINTS")
  = (λ v, v + (hit b c SETTLEMENT + 2 * hit b c CITY))
      <$> player_state s !! (seat_key c +:+ "_VICTORY_POINTS") ∧
  player_state s' !! (seat_key c +:+ "_ACTUAL_VICTORY_POINTS")
  = (λ v, v + (hit b c SETTLEMENT + 2 * hit b c CITY))
      <$> player_state s !! (seat_key c +:+ "_ACTUAL_VICTORY_POINTS").
Proof.
  intros Hseated (c0 & ns & Hc0 & _ & _ & H)%apply_building_seat; [|done].
  cbv zeta in H. destruct H as (_ & _ & _ & _ & ->).
  unfold hit. rewrite Hc0.
  assert (∀ (x : option Z) (f g : Z → Z), (∀ v, f v = g v) → f <$> x = g <$> x) as Hext.
  { intros [v|] f g Hfg; simpl; [by rewrite Hfg|done]. }
  assert (∀ (x : option Z) (f : Z → Z), (∀ v, f v = v) → x = f <$> x) as Hid.
  { intros [v|] f Hf; simpl; [by rewrite Hf|done]. }
  assert (∀ x y : string, x ≠ y → seat_key c0 +:+ x ≠ seat_key c0 +:+ y) as Hkey.
  { intros x y Hxy Heq. by apply append_inj_l in Heq. }
  destruct (decide (c0 = c)) as [->|Hne].
  - split; [intros t|split].
    + rewrite !lookup_alter_ne by (apply Hkey; by destruct t).
      destruct (decide (building_kind b = t)) as [<-|Hkind].
      * rewrite lookup_alter_eq, decide_True by done. done.
      * rewrite lookup_alter_ne by (apply Hkey; by destruct t, (building_kind b)).
        rewrite decide_False by (by intros [_ ?]). apply Hid. intros v. lia.
    + rewrite lookup_alter_ne by (by apply Hkey).
      rewrite lookup_alter_eq.
      rewrite lookup_alter_ne by (apply Hkey; by destruct (building_kind b)).
      apply Hext. intros v.
      destruct (building_kind b); simpl; repeat case_decide;
        first [lia|exfalso; intuition congruence].
    + rewrite lookup_alter_eq.
      rewrite lookup_alter_ne by (by apply Hkey).
      rewrite lookup_alter_ne by (apply Hkey; by destruct (building_kind b)).
      apply Hext. intros v.
      destruct (building_kind b); simpl; repeat case_decide;
        first [lia|exfalso; intuition congruence].
  - split; [intros t|split].
    all: rewrite !lookup_alter_ne by (by apply seat_key_ne).
    all: rewrite !decide_False by (intros [[=] _]; done).
    all: apply Hid; intros v; lia.
Qed.

Lemma for_each_app {A S : Type} (body : S → A → result S) (l1 l2 : list A) (s : S) :
  for_each body (l1 ++ l2) s = s1 ← for_each body l1 s; for_each body l2 s1.
Proof.
  revert s. induction l1 as [|x l1 IH]; intros s; simpl; [done|].
  destruct (body s x); simpl; [apply IH|done].
Qed.

(** A key the buildings loop does not write keeps its value. *)
Lemma apply_building_frame (s : State) (b : BuildingInfo) (s' : State) (k : string) :
  apply_building s b = Ok s' → building_key k = false →
  player_state s' !! k = player_state s !! k.
Proof.
  intros (c & i & ns & _ & _ & _ & H)%apply_building_inv Hk. cbv zeta in H.
  destruct H as (_ & _ & _ & _ & _ & _ & _ & _ & _ & ->).
  unfold building_key in Hk. apply orb_false_elim in Hk as [Hk Hvp].
  apply orb_false_elim in Hk as [Hsa Hca].
  rewrite !lookup_alter_ne; [done|..]; intros <-.
  - destruct (building_kind b); simpl in *;
      [by rewrite has_suffix_app in Hsa|by rewrite has_suffix_app in Hca].
  - by rewrite has_suffix_app in Hvp.
  - by rewrite has_suffix_app_r in Hvp.
Qed.

(** The buildings loop: the seating and the roads stay, the buildable set
    loses the overrides' vertices and their neighbors, counters are kept. *)
Lemma buildings_loop (bs : list BuildingInfo) (s s' : State) :
  for_each apply_building bs s = Ok s' →
  players s' = players s ∧ colors s' = colors s ∧
  color_to_index s' = color_to_index s ∧
  roads (board s') = roads (board s) ∧
  board_buildable_ids (board s') = board_buildable_ids (board s) ∖ removed_ids bs ∧
  (∀ k, building_key k = false → player_state s' !! k = player_state s !! k) ∧
  (∀ k, is_Some (player_state s !! k) → is_Some (player_state s' !! k)).
Proof.
  revert s. induction bs as [|b bs IH]; intros s; simpl.
  - intros [= <-]. unfold removed_ids. simpl. repeat split; try done. set_solver.
  - destruct (apply_building s b) as [s1|] eqn:Hb; simpl; [|done].
    intros (Hp & Hc & Hi & Hr & Hids & Hframe & Hdom)%IH.
    pose proof (λ k, apply_building_frame s b s1 k Hb) as Hframe1.
    apply apply_building_inv in Hb as (c & i & ns & _ & _ & Hns & H). cbv zeta in H.
    destruct H as (_ & _ & _ & Hp1 & Hc1 & Hi1 & _ & Hr1 & Hids1 & Hps1).
    split; [congruence|]. split; [congruence|]. split; [congruence|].
    split; [congruence|]. split; [|split].
    + rewrite Hids, Hids1. unfold removed_ids. rewrite fmap_cons, union_list_cons, Hns.
      simpl. set_solver.
    + intros k Hk. rewrite Hframe by done. by apply Hframe1.
    + intros k Hk. apply Hdom. rewrite Hps1. by rewrite !lookup_alter_is_Some.
Qed.

Lemma seated_same (s s' : State) :
  colors s' = colors s → color_to_index s' = color_to_index s → seated s → seated s'.
Proof. intros Hc Hi (n & ? & ?). exists n. split; congruence. Qed.

(** The counters of a color's seat after the buildings loop. *)
Lemma buildings_loop_counters (bs : list BuildingInfo) (s s' : State) (c : Color) :
  seated s → for_each apply_building bs s = Ok s' →
  (∀ t, player_state s' !! (seat_key c +:+ stock_suffix t)
        = (λ v, v - overrides_of c t bs)
            <$> player_state s !! (seat_key c +:+ stock_suffix t)) ∧
  player_state s' !! (seat_key c +:+ "_VICTORY_POINTS")
  = (λ v, v + (overrides_of c SETTLEMENT bs + 2 * overrides_of c CITY bs))
      <$> player_state s !! (seat_key c +:+ "_VICTORY_POINTS") ∧
  player_state s' !! (seat_key c +:+ "_ACTUAL_VICTORY_POINTS")
  = (λ v, v + (overrides_of c SETTLEMENT bs + 2 * overrides_of c CITY bs))
      <$> player_state s !! (seat_key c +:+ "_ACTUAL_VICTORY_POINTS").
Proof.
  assert (∀ (x : option Z) (f g h : Z → Z),
             (∀ v, g (f v) = h v) → g <$> (f <$> x) = h <$> x) as Hcomp.
  { intros [v|] f g h Hfg; simpl; [by rewrite Hfg|done]. }
  assert (∀ (x : option Z) (f : Z → Z), (∀ v, f v = v) → x = f <$> x) as Hid.
  { intros [v|] f Hf; simpl; [by rewrite Hf|done]. }
  revert s. induction bs as [|b bs IH]; intros s Hseated; simpl.
  - intros [= <-]. unfold overrides_of. simpl.
    split; [intros t|split]; apply Hid; intros v; lia.
  - destruct (apply_building s b) as [s1|] eqn:Hb; simpl; [|done].
    intros Hloop.
    destruct (apply_building_counters s b s1 c Hseated Hb) as (Hst1 & Hvp1 & Havp1).
    apply apply_building_inv in Hb as (c0 & i0 & ns0 & _ & _ & _ & H). cbv zeta in H.
    destruct H as (_ & _ & _ & _ & Hc1 & Hi1 & _).
    destruct (IH s1 (seated_same _ _ Hc1 Hi1 Hseated) Hloop) as (Hst & Hvp & Havp).
    rewrite !overrides_of_cons.
    split; [intros t|split].
    + rewrite Hst, Hst1, overrides_of_cons. apply Hcomp. intros v. lia.
    + rewrite Hvp, Hvp1. apply Hcomp. intros v. lia.
    + rewrite Havp, Havp1. apply Hcomp. intros v. lia.
Qed.

(** What one road override does, field by field. *)
Lemma apply_road_inv (s : State) (r : RoadInfo) (s' : State) :
  apply_road s r = Ok s' →
  ∃ c i,
    Color_getitem (r_color r) = Ok c ∧
    color_to_index s !! c = Some i ∧
    is_Some (player_state s !! (("P" +:+ pretty i) +:+ "_ROADS_AVAILABLE")) ∧
    players s' = players s ∧ colors s' = colors s ∧
    color_to_index s' = color_to_index s ∧
    buildings (board s') = buildings (board s) ∧
    board_buildable_ids (board s') = board_buildable_ids (board s) ∧
    roads (board s')
      = <[((r_edge_id r).2, (r_edge_id r).1) := c]> (<[r_edge_id r := c]> (roads (board s))) ∧
    player_state s'
      = alter (λ v, v - 1) (("P" +:+ pretty i) +:+ "_ROADS_AVAILABLE") (player_state s).
Proof.
  unfold apply_road.
  destruct (Color_getitem (r_color r)) as [c|] eqn:Hc; simpl; [|done].
  unfold player_key, dict_getitem at 1. simpl.
  destruct (color_to_index s !! c) as [i|] eqn:Hi; simpl; [|done].
  intros Hs'. exists c, i. do 2 (split; [done|]).
  match type of Hs' with (mbind _ ?m = _) => destruct m as [ps1|] eqn:H1 end;
    simpl in Hs'; [|done].
  injection Hs' as <-. simpl. apply dict_isub_inv in H1 as [Hs1 ->]. by repeat split.
Qed.

Lemma apply_road_frame (s : State) (r : RoadInfo) (s' : State) (k : string) :
  apply_road s r = Ok s' → road_key k = false →
  player_state s' !! k = player_state s !! k.
Proof.
  intros (c & i & _ & _ & _ & _ & _ & _ & _ & _ & _ & ->)%apply_road_inv Hk.
  rewrite lookup_alter_ne; [done|]. intros <-. unfold road_key in Hk.
  by rewrite has_suffix_app in Hk.
Qed.

(** The roads loop: the seating, the buildings and the buildable set stay. *)
Lemma roads_loop (rs : list RoadInfo) (s s' : State) :
  for_each apply_road rs s = Ok s' →
  players s' = players s ∧ colors s' = colors s ∧
  color_to_index s' = color_to_index s ∧
  buildings (board s') = buildings (board s) ∧
  board_buildable_ids (board s') = board_buildable_ids (board s) ∧
  (∀ k, road_key k = false → player_state s' !! k = player_state s !! k) ∧
  (∀ k, is_Some (player_state s !! k) → is_Some (player_state s' !! k)).
Proof.
  revert s. induction rs as [|r rs IH]; intros s; simpl.
  - by intros [= <-].
  - destruct (apply_road s r) as [s1|] eqn:Hr; simpl; [|done].
    intros (Hp & Hc & Hi & Hb & Hids & Hframe & Hdom)%IH.
    pose proof (λ k, apply_road_frame s r s1 k Hr) as Hframe1.
    apply apply_road_inv in Hr
      as (c & i & _ & _ & _ & Hp1 & Hc1 & Hi1 & Hb1 & Hids1 & _ & Hps1).
    repeat split; try congruence.
    + intros k Hk. rewrite Hframe by done. by apply Hframe1.
    + intros k Hk. apply Hdom. rewrite Hps1. by rewrite lookup_alter_is_Some.
Qed.

(** The road stock of a color's seat after the roads loop. *)
Lemma roads_loop_counter (rs : list RoadInfo) (s s' : State) (c : Color) :
  seated s → for_each apply_road rs s = Ok s' →
  player_state s' !! (seat_key c +:+ "_ROADS_AVAILABLE")
  = (λ v, v - roads_of c rs) <$> player_state s !! (seat_key c +:+ "_ROADS_AVAILABLE").
Proof.
  revert s. induction rs as [|r rs IH]; intros s Hseated; simpl.
  - intros [= <-]. unfold roads_of. simpl.
    destruct (player_state s !! _); simpl; f_equal; lia.
  - destruct (apply_road s r) as [s1|] eqn:Hr; simpl; [|done].
    intros Hloop.
    apply apply_road_inv in Hr
      as (c0 & i & Hc0 & Hi & _ & _ & Hc1 & Hi1 & _ & _ & _ & Hps1).
    rewrite (IH s1 (seated_same _ _ Hc1 Hi1 Hseated) Hloop), Hps1.
    rewrite (seated_lookup s c0 Hseated) in Hi. case_decide; [|done].
    injection Hi as <-. fold (seat_key c0).
    unfold roads_of. rewrite filter_cons, Hc0, lookup_alter.
    destruct (decide (c0 = c)) as [->|Hne].
    + rewrite decide_True by done. rewrite decide_True by done.
      destruct (player_state s !! _); simpl; f_equal; lia.
    + rewrite decide_False by (by intros []%seat_key_inj).
      by rewrite decide_False by congruence.
Qed.

(** Road overrides that name neither key of an edge leave both keys alone. *)
Lemma roads_loop_keep (rs : list RoadInfo) (s s' : State) (e0 e : Z * Z) :
  for_each apply_road rs s = Ok s' →
  (∀ r, r ∈ rs → r_edge_id r ∉ edge_keys e0) →
  e ∈ edge_keys e0 →
  roads (board s') !! e = roads (board s) !! e.
Proof.
  intros Hloop Hrs He. revert s Hloop. induction rs as [|r rs IH]; intros s; simpl.
  - by intros [= <-].
  - destruct (apply_road s r) as [s1|] eqn:Hr; simpl; [|done].
    intros Hloop. rewrite (IH (λ r' Hr', Hrs r' (list_elem_of_further _ _ _ Hr')) s1 Hloop).
    apply apply_road_inv in Hr as (c & i & _ & _ & _ & _ & _ & _ & _ & _ & -> & _).
    pose proof (Hrs r (list_elem_of_here _ _)) as Hne.
    destruct e0 as [a0 b0], (r_edge_id r) as [a b]. unfold edge_keys in *. simpl in *.
    rewrite !elem_of_cons, elem_of_nil in He.
    rewrite !not_elem_of_cons in Hne.
    rewrite !lookup_insert_ne; [done|..]; intros <-; naive_solver.
Qed.

(** A road override is registered under both keys of its edge, for its
    owner, unless a later override names the edge again. *)
Lemma roads_loop_registered (pre post : list RoadInfo) (r : RoadInfo) (s s' : State)
  (e : Z * Z) :
  for_each apply_road (pre ++ r :: post) s = Ok s' →
  (∀ r', r' ∈ post → r_edge_id r' ∉ edge_keys (r_edge_id r)) →
  e ∈ edge_keys (r_edge_id r) →
  ∃ c, Color_getitem (r_color r) = Ok c ∧ roads (board s') !! e = Some c.
Proof.
  rewrite for_each_app. destruct (for_each apply_road pre s) as [s1|]; simpl; [|done].
  destruct (apply_road s1 r) as [s2|] eqn:Hr; simpl; [|done].
  intros Hpost Hlater He.
  rewrite (roads_loop_keep post s2 s' (r_edge_id r) e Hpost Hlater He).
  apply apply_road_inv in Hr as (c & i & Hc & _ & _ & _ & _ & _ & _ & _ & -> & _).
  exists c. split; [done|].
  unfold edge_keys in He. rewrite !elem_of_cons, elem_of_nil in He.
  destruct He as [->|[->|[]]].
  - destruct (decide (((r_edge_id r).2, (r_edge_id r).1) = r_edge_id r)) as [->|Hne].
    + apply lookup_insert_eq.
    + rewrite lookup_insert_ne by done. apply lookup_insert_eq.
  - apply lookup_insert_eq.
Qed.

(** ** The later overrides *)

Lemma set_in_hand_frame {V : Type} (table : gmap string V) (pk : string)
  (l : list (string * Z)) (ps : gmap string Z) (k : string) :
  has_suffix "_IN_HAND" k = false →
  foldl (set_in_hand table pk) ps l !! k = ps !! k.
Proof.
  intros Hk. revert ps. induction l as [|[token count] l IH]; intros ps; simpl; [done|].
  rewrite IH. destruct (dict_contains token table); [|done].
  rewrite lookup_insert_ne; [done|]. intros <-.
  rewrite (has_suffix_app_r "_IN_HAND" pk) in Hk; [done|].
  apply has_suffix_app_r, has_suffix_app.
Qed.

Lemma set_in_hand_dom {V : Type} (table : gmap string V) (pk : string)
  (l : list (string * Z)) (ps : gmap string Z) (k : string) :
  is_Some (ps !! k) → is_Some (foldl (set_in_hand table pk) ps l !! k).
Proof.
  revert ps. induction l as [|[token count] l IH]; intros ps Hk; simpl; [done|].
  apply IH. destruct (dict_contains token table); [|done].
  rewrite lookup_insert_is_Some. destruct (decide (pk +:+ "_" +:+ token +:+ "_IN_HAND" = k)); auto.
Qed.

(** The entries whose token the table does not know change nothing. *)
Lemma set_in_hand_filter {V : Type} (table : gmap string V) (pk : string)
  (l : list (string * Z)) (ps : gmap string Z) :
  foldl (set_in_hand table pk) ps (filter (λ e, dict_contains e.1 table = true) l)
  = foldl (set_in_hand table pk) ps l.
Proof.
  revert ps. induction l as [|[token count] l IH]; intros ps; [done|].
  rewrite filter_cons. simpl. destruct (dict_contains token table) eqn:Hin.
  - rewrite decide_True by done. simpl. by rewrite Hin, IH.
  - rewrite decide_False by done. apply IH.
Qed.

Lemma knights_loop (ks : list (string * Z)) (s s' : State) :
  for_each apply_knights ks s = Ok s' →
  players s' = players s ∧ colors s' = colors s ∧
  color_to_index s' = color_to_index s ∧ board s' = board s ∧
  is_initial_build_phase s' = is_initial_build_phase s ∧
  (∀ k, has_suffix "_PLAYED_KNIGHT" k = false →
        player_state s' !! k = player_state s !! k) ∧
  (∀ k, is_Some (player_state s !! k) → is_Some (player_state s' !! k)).
Proof.
  revert s. induction ks as [|[color_str count] ks IH]; intros s; simpl.
  - by intros [= <-].
  - destruct (Color_getitem color_str) as [c|]; simpl; [|done].
    destruct (player_key s c) as [pk|]; simpl; [|done].
    intros (Hp & Hc & Hi & Hb & Hph & Hframe & Hdom)%IH. simpl in *.
    repeat split; try done.
    + intros k Hk. rewrite Hframe by done. rewrite lookup_insert_ne; [done|].
      intros <-. by rewrite has_suffix_app in Hk.
    + intros k Hk. apply Hdom. rewrite lookup_insert_is_Some.
      destruct (decide (pk +:+ "_PLAYED_KNIGHT" = k)); auto.
Qed.

(** [apply_overrides], phase by phase: the buildings loop, the roads loop,
    and what the later overrides keep of the state the roads loop leaves. *)
Lemma apply_overrides_inv (data : AdvisorRequest) (s : State) (adv : Color)
  (g : State) (a : Color) :
  apply_overrides data s adv = Ok (g, a) →
  ∃ s1 s2,
    for_each apply_building (req_buildings data) s = Ok s1 ∧
    for_each apply_road (req_roads data) s1 = Ok s2 ∧
    a = adv ∧ adv ∈ dom (color_to_index s2) ∧
    players g = players s2 ∧ colors g = colors s2 ∧
    color_to_index g = color_to_index s2 ∧
    buildings (board g) = buildings (board s2) ∧
    roads (board g) = roads (board s2) ∧
    board_buildable_ids (board g) = board_buildable_ids (board s2) ∧
    is_initial_build_phase g = false ∧ current_prompt g = PLAY_TURN ∧
    (∀ k, late_key k = false → player_state g !! k = player_state s2 !! k) ∧
    (∀ k, is_Some (player_state s2 !! k) → is_Some (player_state g !! k)).
Proof.
  unfold apply_overrides.
  destruct (for_each apply_building (req_buildings data) s) as [s1|] eqn:Hb; simpl; [|done].
  destruct (for_each apply_road (req_roads data) s1) as [s2|] eqn:Hr; simpl; [|done].
  set (s3 := match req_robber_coordinate data with
             | Some robber_coord => set_board (set_robber_coordinate robber_coord) s2
             | None => s2
             end).
  assert (players s3 = players s2 ∧ colors s3 = colors s2 ∧
          color_to_index s3 = color_to_index s2 ∧
          buildings (board s3) = buildings (board s2) ∧
          roads (board s3) = roads (board s2) ∧
          board_buildable_ids (board s3) = board_buildable_ids (board s2) ∧
          player_state s3 = player_state s2) as (Hp3 & Hc3 & Hi3 & Hb3 & Hr3 & Hids3 & Hps3).
  { unfold s3. by destruct (req_robber_coordinate data). }
  clearbody s3.
  unfold dict_getitem at 1.
  destruct (color_to_index s3 !! adv) as [i|] eqn:Hadv; simpl; [|done].
  unfold player_key, dict_getitem at 1. simpl. rewrite Hadv. simpl.
  match goal with
  | |- mbind _ ?m = _ → _ => destruct m as [s5|] eqn:Hk
  end; simpl; [|done].
  destruct (generate_playable_actions _) as [acts|]; simpl; [|done].
  intros [= <- <-]. exists s1, s2. simpl.
  apply knights_loop in Hk as (Hp5 & Hc5 & Hi5 & Hb5 & _ & Hframe5 & Hdom5).
  simpl in *. rewrite Hb5.
  do 3 (split; [done|]).
  split; [apply elem_of_dom; rewrite <- Hi3; by eexists|].
  do 8 (split; [congruence|]). split.
  - intros k Hk. unfold late_key in Hk. apply orb_false_elim in Hk as [Hk Hrolled].
    apply orb_false_elim in Hk as [Hhand Hknight].
    rewrite lookup_insert_ne by (intros <-; by rewrite has_suffix_app in Hrolled).
    rewrite Hframe5 by done. rewrite !set_in_hand_frame by done. by rewrite Hps3.
  - intros k Hk. rewrite lookup_insert_is_Some.
    destruct (decide (("P" +:+ pretty i) +:+ "_HAS_ROLLED" = k)); [by left|right].
    split; [done|]. apply Hdom5. do 2 apply set_in_hand_dom. by rewrite Hps3.
Qed.

(** The fresh game: the seating of lines 156-158 over what [Game] built. *)
Lemma fresh_game_inv (data : AdvisorRequest) (s0 : State) (adv : Color) :
  fresh_game data = Ok (s0, adv) →
  seated s0 ∧
  colors s0 = py_slice_to advisor_colors (default 2 (req_num_players data)) ∧
  Color_getitem (default "RED" (req_advised_player data)) = Ok adv.
Proof.
  unfold fresh_game.
  destruct (Color_getitem _) as [c|] eqn:Hc; simpl; [|done].
  match goal with
  | |- mbind _ ?m = _ → _ => destruct m as [catan_map|]
  end; simpl; [|done].
  destruct (Game_new _ catan_map) as [game|]; simpl; [|done].
  intros [= <- <-]. simpl. split; [|done].
  unfold seated, py_slice_to. simpl. case_decide; eexists; split; reflexivity.
Qed.

(** ** The victory-point snapshot *)

Lemma Color_value_inj (c c' : Color) : Color_value c = Color_value c' → c = c'.
Proof. by destruct c, c'. Qed.

Lemma calculate_victory_points_total (g : State) :
  seated g →
  (∀ c, c ∈ colors g →
        is_Some (player_state g !! (seat_key c +:+ "_ACTUAL_VICTORY_POINTS"))) →
  ∃ vps, calculate_victory_points g = Ok vps.
Proof.
  intros Hseated Hall. unfold calculate_victory_points.
  generalize (∅ : gmap string Z).
  assert (∀ c, c ∈ colors g → c ∈ colors g) as Hsub by done. revert Hsub.
  generalize (colors g) at 1 3. intros l. induction l as [|c l IH]; intros Hsub acc; simpl.
  - by eexists.
  - rewrite (player_key_colors g c Hseated) by (apply Hsub; by left). simpl.
    destruct (Hall c) as [vp Hvp]; [apply Hsub; by left|].
    unfold dict_getitem. rewrite Hvp. simpl. apply IH.
    intros c' Hc'. apply Hsub. by right.
Qed.

(** The snapshot holds, per seat, the actual victory points of the seat. *)
Lemma calculate_victory_points_lookup (g : State) (vps : gmap string Z) (c : Color) :
  seated g → calculate_victory_points g = Ok vps →
  vps !! Color_value c
  = if decide (c ∈ colors g)
    then player_state g !! (seat_key c +:+ "_ACTUAL_VICTORY_POINTS")
    else None.
Proof.
  intros Hseated. unfold calculate_victory_points.
  change (@None Z) with ((∅ : gmap string Z) !! Color_value c) at 1.
  generalize (∅ : gmap string Z). generalize (colors g).
  intros l. induction l as [|x l IH]; intros acc; cbn [for_each].
  - intros [= <-]. rewrite decide_False; [done|]. by intros ?%elem_of_nil.
  - destruct (player_key g x) as [pk|] eqn:Hpk; simpl; [|done].
    apply (player_key_seated g x pk Hseated) in Hpk as [-> _].
    unfold dict_getitem.
    destruct (player_state g !! (seat_key x +:+ "_ACTUAL_VICTORY_POINTS")) as [vp|] eqn:Hvp;
      simpl; [|done].
    intros Hloop. rewrite (IH _ Hloop).
    destruct (decide (c ∈ l)) as [Hin|Hnin].
    + rewrite decide_True; [done|]. by right.
    + destruct (decide (c = x)) as [->|Hne].
      * rewrite decide_True by (by left). by rewrite lookup_insert_eq.
      * rewrite decide_False by (rewrite elem_of_cons; naive_solver).
        rewrite lookup_insert_ne; [done|]. by intros ?%Color_value_inj.
Qed.

End ReconstructorProperties.

(** ** A whole reconstruction *)

Section ReconstructorRuns.
Context {MT : MapTypes} {ME : MapExternals} {EX : Externals}.

(** [apply_overrides] with every intermediate state. *)
Lemma apply_overrides_full (data : AdvisorRequest) (s : State) (adv : Color)
  (g : State) (a : Color) :
  apply_overrides data s adv = Ok (g, a) →
  ∃ s1 s2 i s5 acts,
    for_each apply_building (req_buildings data) s = Ok s1 ∧
    for_each apply_road (req_roads data) s1 = Ok s2 ∧
    a = adv ∧
    let s3 := match req_robber_coordinate data with
              | Some robber_coord => set_board (set_robber_coordinate robber_coord) s2
              | None => s2
              end in
    color_to_index s3 !! adv = Some i ∧
    let pk := "P" +:+ pretty i in
    let s4 :=
      set_player_state
        (λ ps, foldl (set_in_hand DEV_CARD_MAP pk) ps (req_player_dev_cards data))
        (set_player_state
           (λ ps, foldl (set_in_hand RESOURCE_MAP pk) ps (req_player_resources data))
           (set_current_player i s3)) in
    for_each apply_knights (req_players_knights data) s4 = Ok s5 ∧
    let s6 := set_player_state <[pk +:+ "_HAS_ROLLED" := 1]> (set_phase false PLAY_TURN s5) in
    generate_playable_actions s6 = Ok acts ∧
    g = set_playable_actions acts s6.
Proof.
  unfold apply_overrides.
  destruct (for_each apply_building (req_buildings data) s) as [s1|] eqn:Hb; simpl; [|done].
  destruct (for_each apply_road (req_roads data) s1) as [s2|] eqn:Hr; simpl; [|done].
  set (s3 := match req_robber_coordinate data with
             | Some robber_coord => set_board (set_robber_coordinate robber_coord) s2
             | None => s2
             end).
  unfold dict_getitem at 1.
  destruct (color_to_index s3 !! adv) as [i|] eqn:Hadv; simpl; [|done].
  assert (color_to_index (set_current_player i s3) = color_to_index s3) as Hi by done.
  unfold player_key, dict_getitem at 1. rewrite Hi, Hadv. simpl.
  match goal with
  | |- mbind _ ?m = _ → _ => destruct m as [s5|] eqn:Hk
  end; simpl; [|done].
  match goal with
  | |- mbind _ ?m = _ → _ => destruct m as [acts|] eqn:Hacts
  end; simpl; [|done].
  intros [= <- <-]. by exists s1, s2, i, s5, acts.
Qed.

Lemma buildings_loop_valid (bs : list BuildingInfo) (s s' : State) (b : BuildingInfo) :
  seated s → for_each apply_building bs s = Ok s' → b ∈ bs →
  (∃ c, Color_getitem (b_color b) = Ok c ∧ c ∈ colors s) ∧
  is_Some (STATIC_GRAPH !! b_node_id b).
Proof.
  revert s. induction bs as [|b0 bs IH]; intros s Hseated; simpl.
  - by intros _ ?%elem_of_nil.
  - destruct (apply_building s b0) as [s1|] eqn:Hb; simpl; [|done].
    intros Hloop Hin.
    pose proof (apply_building_seat s b0 s1 Hseated Hb) as (c & ns & Hc & Hcin & Hns & _).
    apply apply_building_inv in Hb as (c' & i & ns' & _ & _ & _ & H). cbv zeta in H.
    destruct H as (_ & _ & _ & _ & Hc1 & Hi1 & _).
    apply elem_of_cons in Hin as [->|Hin]; [by eauto|].
    rewrite <- Hc1. apply (IH s1); [by eapply seated_same|done..].
Qed.

Lemma roads_loop_valid (rs : list RoadInfo) (s s' : State) (r : RoadInfo) :
  seated s → for_each apply_road rs s = Ok s' → r ∈ rs →
  ∃ c, Color_getitem (r_color r) = Ok c ∧ c ∈ colors s.
Proof.
  revert s. induction rs as [|r0 rs IH]; intros s Hseated; simpl.
  - by intros _ ?%elem_of_nil.
  - destruct (apply_road s r0) as [s1|] eqn:Hr; simpl; [|done].
    intros Hloop Hin.
    apply apply_road_inv in Hr as (c & i & Hc & Hi & _ & _ & Hc1 & Hi1 & _).
    apply elem_of_cons in Hin as [->|Hin].
    + exists c. split; [done|]. rewrite (seated_lookup s c Hseated) in Hi.
      by case_decide.
    + rewrite <- Hc1. apply (IH s1); [by eapply seated_same|done..].
Qed.

Lemma knights_loop_valid (ks : list (string * Z)) (s s' : State) (e : string * Z) :
  seated s → for_each apply_knights ks s = Ok s' → e ∈ ks →
  ∃ c, Color_getitem e.1 = Ok c ∧ c ∈ colors s.
Proof.
  revert s. induction ks as [|[color_str count] ks IH]; intros s Hseated; simpl.
  - by intros _ ?%elem_of_nil.
  - destruct (Color_getitem color_str) as [c|] eqn:Hc; simpl; [|done].
    destruct (player_key s c) as [pk|] eqn:Hpk; simpl; [|done].
    intros Hloop Hin. apply elem_of_cons in Hin as [->|Hin].
    + exists c. split; [done|]. by destruct (player_key_seated s c pk Hseated Hpk).
    + apply (IH (set_player_state <[pk +:+ "_PLAYED_KNIGHT":=count]> s)); done.
Qed.

Lemma fresh_game_colors (data : AdvisorRequest) (s0 : State) (adv : Color) :
  fresh_game data = Ok (s0, adv) →
  colors s0 = requested_colors data ∧
  players s0 = (λ color, AlphaBetaPlayer color 2 true) <$> requested_colors data.
Proof.
  unfold fresh_game.
  destruct (Color_getitem _) as [c|] eqn:Hc; simpl; [|done].
  match goal with
  | |- mbind _ ?m = _ → _ => destruct m as [catan_map|]
  end; simpl; [|done].
  destruct (Game_new _ catan_map) as [game|]; simpl; [|done].
  by intros [= <- <-].
Qed.

(** A reconstruction that succeeds was given valid overrides. *)
Lemma create_game_valid (data : AdvisorRequest) (g : State) (adv : Color) :
  create_game_from_advisor_request data = Ok (g, adv) → overrides_valid data.
Proof.
  unfold create_game_from_advisor_request.
  destruct (fresh_game data) as [[s0 adv0]|] eqn:Hfresh; simpl; [|done].
  destruct (fresh_game_inv _ _ _ Hfresh) as (Hseated & _ & Hadv).
  destruct (fresh_game_colors _ _ _ Hfresh) as (Hcolors & _).
  intros (s1 & s2 & i & s5 & acts & Hb & Hr & _ & H)%apply_overrides_full.
  cbv zeta in H. destruct H as (Hi & Hk & _).
  destruct (buildings_loop _ _ _ Hb) as (_ & Hc1 & Hi1 & _).
  destruct (roads_loop _ _ _ Hr) as (_ & Hc2 & Hi2 & _).
  assert (seated s1) as Hseated1 by (by eapply seated_same).
  assert (seated s2) as Hseated2 by (by eapply seated_same).
  unfold overrides_valid, names_seat. rewrite <- Hcolors.
  split; [|split; [|split]].
  - exists adv0. split; [done|].
    assert (color_to_index s2 !! adv0 = Some i) as Hi'.
    { by destruct (req_robber_coordinate data). }
    rewrite (seated_lookup s2 adv0 Hseated2) in Hi'.
    case_decide as Hin; [|done]. congruence.
  - intros b Hin. by apply (buildings_loop_valid _ _ _ b Hseated Hb).
  - intros r Hin. rewrite <- Hc1. by apply (roads_loop_valid _ _ _ r Hseated1 Hr).
  - intros e Hin. rewrite <- Hc1, <- Hc2.
    eapply (knights_loop_valid _ _ _ e) in Hk; [|by destruct (req_robber_coordinate data)|done].
    destruct Hk as (c & Hc & Hcin). exists c. split; [done|].
    by destruct (req_robber_coordinate data).
Qed.

(** The loops leave the map and the robber alone. *)
Lemma apply_building_robber (s : State) (b : BuildingInfo) (s' : State) :
  apply_building s b = Ok s' →
  map (board s') = map (board s) ∧
  robber_coordinate (board s') = robber_coordinate (board s).
Proof.
  unfold apply_building.
  destruct (Color_getitem (b_color b)) as [c|]; simpl; [|done].
  unfold dict_getitem at 1. simpl.
  destruct (buildings_by_color s !! c) as [by_type|]; simpl; [|done].
  destruct (neighbors STATIC_GRAPH (b_node_id b)) as [ns|]; simpl; [|done].
  match goal with
  | |- mbind _ ?m = _ → _ => destruct m as [pk|]
  end; simpl; [|done].
  destruct (decide (b_building b = "SETTLEMENT")); simpl.
  all: repeat match goal with
              | |- mbind _ ?m = _ → _ => destruct m; simpl; [|done]
              end;
       by intros [= <-].
Qed.

Lemma buildings_loop_robber (bs : list BuildingInfo) (s s' : State) :
  for_each apply_building bs s = Ok s' →
  map (board s') = map (board s) ∧
  robber_coordinate (board s') = robber_coordinate (board s).
Proof.
  revert s. induction bs as [|b bs IH]; intros s; simpl.
  - by intros [= <-].
  - destruct (apply_building s b) as [s1|] eqn:Hb; simpl; [|done].
    intros [Hm Hr]%IH. apply apply_building_robber in Hb as [Hm1 Hr1].
    split; congruence.
Qed.

Lemma roads_loop_robber (rs : list RoadInfo) (s s' : State) :
  for_each apply_road rs s = Ok s' →
  map (board s') = map (board s) ∧
  robber_coordinate (board s') = robber_coordinate (board s).
Proof.
  revert s. induction rs as [|r rs IH]; intros s; simpl.
  - by intros [= <-].
  - destruct (apply_road s r) as [s1|] eqn:Hr; simpl; [|done].
    intros [Hm Hrob]%IH. revert Hr. unfold apply_road.
    destruct (Color_getitem (r_color r)) as [c|]; simpl; [|done].
    match goal with
    | |- mbind _ ?m = _ → _ => destruct m as [pk|]
    end; simpl; [|done].
    match goal with
    | |- mbind _ ?m = _ → _ => destruct m as [ps|]
    end; simpl; [|done].
    intros [= <-]. simpl in *. split; congruence.
Qed.

(** The knights loop writes the player state and nothing else. *)
Lemma knights_loop_state (ks : list (string * Z)) (s s' : State) :
  for_each apply_knights ks s = Ok s' →
  ∃ ps', s' = set_player_state (λ _, ps') s.
Proof.
  revert s. induction ks as [|[color_str count] ks IH]; intros s; simpl.
  - intros [= <-]. exists (player_state s). by destruct s.
  - destruct (Color_getitem color_str) as [c|]; simpl; [|done].
    destruct (player_key s c) as [pk|]; simpl; [|done].
    intros [ps' ->]%IH. by exists ps'.
Qed.

(** The player of a seated color sits at the color's rank. *)
Lemma seated_player (g : State) (c : Color) :
  seated g →
  players g = (λ color, AlphaBetaPlayer color 2 true) <$> colors g →
  c ∈ colors g →
  players g !! Color_index c = Some (AlphaBetaPlayer c 2 true).
Proof.
  intros (n & Hc & _) -> Hin. rewrite Hc in Hin |- *.
  destruct (take_advisor_colors n) as (j & Hj & Hn). rewrite Hn in Hin |- *.
  do 5 (destruct j as [|j];
        [destruct c; simpl in Hin |- *; first [done|exfalso; set_solver]|]).
  lia.
Qed.

End ReconstructorRuns.

(** ** The claims about the reconstructor *)

Section ReconstructorClaims.
Context {MT : MapTypes} {ME : MapExternals} {EX : Externals}.

Lemma create_game_inv (data : AdvisorRequest) (g : State) (adv : Color) :
  create_game_from_advisor_request data = Ok (g, adv) →
  ∃ s0, fresh_game data = Ok (s0, adv) ∧ apply_overrides data s0 adv = Ok (g, adv).
Proof.
  unfold create_game_from_advisor_request.
  destruct (fresh_game data) as [[s0 adv0]|] eqn:Hf; simpl; [|done].
  intros Hg. exists s0.
  destruct (apply_overrides_inv _ _ _ _ _ Hg) as (_ & _ & _ & _ & -> & _). done.
Qed.

(** What one building override does to the board and to its owner's
    counters, and what it leaves alone. *)
Lemma apply_building_effect (s : State) (b : BuildingInfo) (s' : State) :
  seated s → apply_building s b = Ok s' →
  ∃ c,
    Color_getitem (b_color b) = Ok c ∧
    let t := building_kind b in
    let ps := player_state s in
    let ps' := player_state s' in
    buildings (board s') !! b_node_id b = Some (c, t) ∧
    changes_by (-1) (seat_key c +:+ stock_suffix t) ps ps' ∧
    changes_by (points t) (seat_key c +:+ "_VICTORY_POINTS") ps ps' ∧
    changes_by (points t) (seat_key c +:+ "_ACTUAL_VICTORY_POINTS") ps ps' ∧
    (∀ t', t' ≠ t →
           ps' !! (seat_key c +:+ stock_suffix t') = ps !! (seat_key c +:+ stock_suffix t')) ∧
    (∀ c' k, c' ≠ c → ps' !! (seat_key c' +:+ k) = ps !! (seat_key c' +:+ k)).
Proof.
  intros Hseated (c & ns & Hc & _ & _ & H)%apply_building_seat; [|done].
  cbv zeta in H. destruct H as ([sa Hsa] & [vp Hvp] & [avp Havp] & Hb & Hps).
  exists c. split; [done|]. cbv zeta. rewrite Hb, Hps.
  split; [apply lookup_insert_eq|].
  split; [|split; [|split; [|split]]].
  - exists sa. split; [done|]. rewrite !lookup_alter.
    destruct (building_kind b); simpl in *; decide_keys; by rewrite Hsa.
  - exists vp. split; [done|]. rewrite !lookup_alter.
    destruct (building_kind b); simpl in *; decide_keys; by rewrite Hvp.
  - exists avp. split; [done|]. rewrite !lookup_alter.
    destruct (building_kind b); simpl in *; decide_keys; by rewrite Havp.
  - intros t' Ht'. rewrite !lookup_alter.
    destruct t', (building_kind b); simpl in *; try done; by decide_keys.
  - intros c' k Hne. rewrite !lookup_alter_ne; [done|..]; by apply seat_key_ne.
Qed.

(** One building override. A token that reads SETTLEMENT places a settlement
    for the owner [c] at the vertex, takes one settlement from the owner's
    stock and adds one point to both victory-point counters; every other
    token places a city, takes one city from the stock and adds two points.
    The owner's other stock and every counter of the other seats stay. *)
Theorem building_override_effect (s : State) (b : BuildingInfo) (s' : State) :
  seated s → apply_building s b = Ok s' →
  ∃ c,
    Color_getitem (b_color b) = Ok c ∧
    let ps := player_state s in
    let ps' := player_state s' in
    (b_building b = "SETTLEMENT" →
       buildings (board s') !! b_node_id b = Some (c, SETTLEMENT) ∧
       changes_by (-1) (seat_key c +:+ "_SETTLEMENTS_AVAILABLE") ps ps' ∧
       changes_by 1 (seat_key c +:+ "_VICTORY_POINTS") ps ps' ∧
       changes_by 1 (seat_key c +:+ "_ACTUAL_VICTORY_POINTS") ps ps' ∧
       ps' !! (seat_key c +:+ "_CITIES_AVAILABLE") = ps !! (seat_key c +:+ "_CITIES_AVAILABLE")) ∧
    (b_building b ≠ "SETTLEMENT" →
       buildings (board s') !! b_node_id b = Some (c, CITY) ∧
       changes_by (-1) (seat_key c +:+ "_CITIES_AVAILABLE") ps ps' ∧
       changes_by 2 (seat_key c +:+ "_VICTORY_POINTS") ps ps' ∧
       changes_by 2 (seat_key c +:+ "_ACTUAL_VICTORY_POINTS") ps ps' ∧
       ps' !! (seat_key c +:+ "_SETTLEMENTS_AVAILABLE")
       = ps !! (seat_key c +:+ "_SETTLEMENTS_AVAILABLE")) ∧
    (∀ c' k, c' ≠ c → ps' !! (seat_key c' +:+ k) = ps !! (seat_key c' +:+ k)).
Proof.
  intros Hseated Hb.
  destruct (apply_building_effect s b s' Hseated Hb)
    as (c & Hc & Hbuilt & Hstock & Hvp & Havp & Hother & Hframe).
  exists c. split; [done|]. cbv zeta. unfold building_kind in *.
  split; [|split; [|done]]; intros Htoken.
  - rewrite decide_True in * by done.
    repeat split; try done. by apply (Hother CITY).
  - rewrite decide_False in * by done.
    repeat split; try done. by apply (Hother SETTLEMENT).
Qed.

(** A building token other than SETTLEMENT, whatever it is, is read as CITY:
    the override does what the same override with the token CITY does. *)
Theorem unknown_building_token_is_city (s : State) (b : BuildingInfo) :
  b_building b ≠ "SETTLEMENT" →
  apply_building s b = apply_building s (with_building "CITY" b).
Proof.
  intros Htoken. unfold apply_building, with_building. simpl.
  by rewrite decide_False by done.
Qed.

Lemma buildings_loop_nodes (bs : list BuildingInfo) (s s' : State) (b : BuildingInfo) :
  for_each apply_building bs s = Ok s' → b ∈ bs →
  is_Some (STATIC_GRAPH !! b_node_id b) ∧ ∃ c, Color_getitem (b_color b) = Ok c.
Proof.
  revert s. induction bs as [|b0 bs IH]; intros s; simpl.
  - by intros _ ?%elem_of_nil.
  - destruct (apply_building s b0) as [s1|] eqn:Hb; simpl; [|done].
    intros Hloop [->|Hin]%elem_of_cons; [|by eapply IH].
    apply apply_building_inv in Hb as (c & i & ns & Hc & _ & Hns & _). eauto.
Qed.

(** The buildable set after reconstruction is the fresh game's buildable set
    without the vertices of the building overrides and without their
    neighbors in [STATIC_GRAPH] (every override's vertex is a node of the
    graph), and nothing else is removed; duplicate vertices change nothing. *)
Theorem buildable_ids_after_reconstruction (data : AdvisorRequest) (g : State) (adv : Color) :
  create_game_from_advisor_request data = Ok (g, adv) →
  ∃ s0,
    fresh_game data = Ok (s0, adv) ∧
    (∀ b, b ∈ req_buildings data → is_Some (STATIC_GRAPH !! b_node_id b)) ∧
    board_buildable_ids (board g)
    = board_buildable_ids (board s0) ∖ removed_ids (req_buildings data).
Proof.
  intros (s0 & Hfresh & Hover)%create_game_inv. exists s0. split; [done|].
  apply apply_overrides_inv in Hover
    as (s1 & s2 & Hb & Hr & _ & _ & _ & _ & _ & _ & _ & Hids & _).
  split.
  - intros b Hin. by destruct (buildings_loop_nodes _ _ _ b Hb Hin).
  - apply buildings_loop in Hb as (_ & _ & _ & _ & Hids1 & _).
    apply roads_loop in Hr as (_ & _ & _ & _ & Hids2 & _). congruence.
Qed.

Lemma stock_key_not_later (c : Color) (t : BuildingType) :
  road_key (seat_key c +:+ stock_suffix t) = false ∧
  late_key (seat_key c +:+ stock_suffix t) = false.
Proof. by destruct c, t. Qed.

Lemma points_key_not_later (c : Color) :
  road_key (seat_key c +:+ "_VICTORY_POINTS") = false ∧
  late_key (seat_key c +:+ "_VICTORY_POINTS") = false ∧
  road_key (seat_key c +:+ "_ACTUAL_VICTORY_POINTS") = false ∧
  late_key (seat_key c +:+ "_ACTUAL_VICTORY_POINTS") = false.
Proof. by destruct c. Qed.

Lemma road_stock_key_not_other (c : Color) :
  building_key (seat_key c +:+ "_ROADS_AVAILABLE") = false ∧
  late_key (seat_key c +:+ "_ROADS_AVAILABLE") = false.
Proof. by destruct c. Qed.

(** The stock and the points of every seat after reconstruction: a stock
    counter is what the fresh game gave, less the overrides of that kind for
    the seat; both point counters gain one per settlement override and two
    per city override. *)
Theorem counters_after_reconstruction (data : AdvisorRequest) (g : State) (adv : Color) :
  create_game_from_advisor_request data = Ok (g, adv) →
  ∃ s0,
    fresh_game data = Ok (s0, adv) ∧
    ∀ c,
      let bs := req_buildings data in
      let gained := overrides_of c SETTLEMENT bs + 2 * overrides_of c CITY bs in
      (∀ t, player_state g !! (seat_key c +:+ stock_suffix t)
            = (λ v, v - overrides_of c t bs)
                <$> player_state s0 !! (seat_key c +:+ stock_suffix t)) ∧
      player_state g !! (seat_key c +:+ "_VICTORY_POINTS")
      = (λ v, v + gained) <$> player_state s0 !! (seat_key c +:+ "_VICTORY_POINTS") ∧
      player_state g !! (seat_key c +:+ "_ACTUAL_VICTORY_POINTS")
      = (λ v, v + gained) <$> player_state s0 !! (seat_key c +:+ "_ACTUAL_VICTORY_POINTS").
Proof.
  intros (s0 & Hfresh & Hover)%create_game_inv. exists s0. split; [done|].
  destruct (fresh_game_inv _ _ _ Hfresh) as (Hseated & _).
  apply apply_overrides_inv in Hover
    as (s1 & s2 & Hb & Hr & _ & _ & _ & _ & _ & _ & _ & _ & _ & _ & Hlate & _).
  apply roads_loop in Hr as (_ & _ & _ & _ & _ & Hroad & _).
  intros c. cbv zeta.
  destruct (buildings_loop_counters _ _ _ c Hseated Hb) as (Hst & Hvp & Havp).
  destruct (points_key_not_later c) as (? & ? & ? & ?).
  split; [intros t; destruct (stock_key_not_later c t)|split].
  - by rewrite Hlate, Hroad, Hst.
  - by rewrite Hlate, Hroad, Hvp.
  - by rewrite Hlate, Hroad, Havp.
Qed.

(** Hand entries whose token is not a resource name (in [player_resources])
    or not a development-card name (in [player_dev_cards]) are skipped
    without an error: the request reconstructs exactly as the request
    without them does. *)
Theorem unknown_hand_tokens_skipped (data : AdvisorRequest) :
  create_game_from_advisor_request (drop_unknown_tokens data)
  = create_game_from_advisor_request data.
Proof.
  unfold create_game_from_advisor_request.
  change (fresh_game (drop_unknown_tokens data)) with (fresh_game data).
  destruct (fresh_game data) as [[s0 adv]|]; simpl; [|done].
  unfold apply_overrides. simpl.
  destruct (for_each apply_building (req_buildings data) s0) as [s1|]; simpl; [|done].
  destruct (for_each apply_road (req_roads data) s1) as [s2|]; simpl; [|done].
  match goal with
  | |- mbind _ ?m = _ => destruct m as [i|]
  end; simpl; [|done].
  match goal with
  | |- mbind _ ?m = _ => destruct m as [pk|]
  end; simpl; [|done].
  unfold set_player_state. simpl.
  by rewrite !set_in_hand_filter.
Qed.

(** Road overrides. Each one is registered for its owner under both
    directional keys of its edge, and the keys still hold that owner after
    reconstruction unless a later road override names the edge again (in
    either direction); a seat's road stock is what the fresh game gave, less
    one per road override of its color. *)
Theorem road_overrides_registered (data : AdvisorRequest) (g : State) (adv : Color) :
  create_game_from_advisor_request data = Ok (g, adv) →
  ∃ s0,
    fresh_game data = Ok (s0, adv) ∧
    (∀ pre r post e,
       req_roads data = pre ++ r :: post →
       (∀ r', r' ∈ post → r_edge_id r' ∉ edge_keys (r_edge_id r)) →
       e ∈ edge_keys (r_edge_id r) →
       ∃ c, Color_getitem (r_color r) = Ok c ∧ roads (board g) !! e = Some c) ∧
    (∀ c, player_state g !! (seat_key c +:+ "_ROADS_AVAILABLE")
          = (λ v, v - roads_of c (req_roads data))
              <$> player_state s0 !! (seat_key c +:+ "_ROADS_AVAILABLE")).
Proof.
  intros (s0 & Hfresh & Hover)%create_game_inv. exists s0. split; [done|].
  destruct (fresh_game_inv _ _ _ Hfresh) as (Hseated & _).
  apply apply_overrides_inv in Hover
    as (s1 & s2 & Hb & Hr & _ & _ & _ & _ & _ & _ & Hroads & _ & _ & _ & Hlate & _).
  destruct (buildings_loop _ _ _ Hb) as (_ & Hc1 & Hi1 & _ & _ & Hframe & _).
  split.
  - intros pre r post e Hsplit Hlater He. rewrite Hroads. rewrite Hsplit in Hr.
    by apply (roads_loop_registered pre post r s1 s2 e).
  - intros c. destruct (road_stock_key_not_other c) as [Hbk Hlk].
    rewrite Hlate by done.
    rewrite (roads_loop_counter _ s1 s2 c) by (done || by eapply seated_same).
    by rewrite Hframe.
Qed.

(** The shape of a reconstructed state, for the endpoint's proofs too. *)
Lemma reconstructed_state (data : AdvisorRequest) (g : State) (adv : Color) :
  create_game_from_advisor_request data = Ok (g, adv) →
  seated g ∧ colors g = requested_colors data ∧
  players g = (λ color, AlphaBetaPlayer color 2 true) <$> requested_colors data ∧
  Color_getitem (default "RED" (req_advised_player data)) = Ok adv ∧
  adv ∈ colors g ∧
  players g !! Color_index adv = Some (AlphaBetaPlayer adv 2 true) ∧
  current_player_index g = Color_index adv ∧
  current_turn_index g = Color_index adv ∧
  is_initial_build_phase g = false ∧ current_prompt g = PLAY_TURN ∧
  player_state g !! (seat_key adv +:+ "_HAS_ROLLED") = Some 1 ∧
  (∃ s0, fresh_game data = Ok (s0, adv) ∧
         map (board g) = map (board s0) ∧
         robber_coordinate (board g)
         = default (robber_coordinate (board s0)) (req_robber_coordinate data)) ∧
  (∃ g', generate_playable_actions g' = Ok (playable_actions g) ∧
         g = set_playable_actions (playable_actions g) g').
Proof.
  intros (s0 & Hfresh & Hover)%create_game_inv.
  destruct (fresh_game_inv _ _ _ Hfresh) as (Hseated & _ & Hadv).
  destruct (fresh_game_colors _ _ _ Hfresh) as (Hcolors & Hplayers).
  apply apply_overrides_full in Hover
    as (s1 & s2 & i & s5 & acts & Hb & Hr & _ & H).
  cbv zeta in H. destruct H as (Hi & Hk & Hacts & ->).
  apply knights_loop_state in Hk as [ps5 ->].
  destruct (buildings_loop _ _ _ Hb) as (Hp1 & Hc1 & Hi1 & _).
  destruct (roads_loop _ _ _ Hr) as (Hp2 & Hc2 & Hi2 & _).
  destruct (buildings_loop_robber _ _ _ Hb) as (Hm1 & Hrob1).
  destruct (roads_loop_robber _ _ _ Hr) as (Hm2 & Hrob2).
  assert (seated s2) as Hseated2.
  { eapply seated_same; [| |exact Hseated]; congruence. }
  assert (color_to_index s2 !! adv = Some i) as Hi'.
  { by destruct (req_robber_coordinate data). }
  rewrite (seated_lookup s2 adv Hseated2) in Hi'.
  case_decide as Hin; [|done]. injection Hi' as <-.
  assert (∀ (A : Type) (f : State → A),
            (∀ c (s : State), f (set_board (set_robber_coordinate c) s) = f s) →
            f (match req_robber_coordinate data with
               | Some robber_coord => set_board (set_robber_coordinate robber_coord) s2
               | None => s2
               end) = f s2) as Hrobber.
  { intros A f Hf. by destruct (req_robber_coordinate data). }
  assert (seated (match req_robber_coordinate data with
                  | Some robber_coord => set_board (set_robber_coordinate robber_coord) s2
                  | None => s2
                  end)) as Hseated3.
  { by destruct (req_robber_coordinate data). }
  cbn [set_playable_actions set_player_state set_phase set_current_player
       players colors color_to_index current_player_index current_turn_index
       is_initial_build_phase current_prompt player_state playable_actions board].
  rewrite !(Hrobber _ colors), !(Hrobber _ players) by done.
  split; [|split; [congruence|split; [congruence|split; [done|split; [congruence|]]]]].
  { destruct Hseated3 as (n & Hcn & Hin'). exists n. by split. }
  split.
  { apply seated_player; [done|congruence|done]. }
  do 4 (split; [done|]).
  split; [apply lookup_insert_eq|]. split.
  - exists s0. split; [done|].
    destruct (req_robber_coordinate data); simpl; split; congruence.
  - eexists. split; [exact Hacts|]. reflexivity.
Qed.

(** What every reconstructed state looks like: the requested colors are
    seated in the fixed order, each with its search player; the advised color
    (RED when the request names none) is one of them and is the current
    player of a regular turn past the initial build phase, with its dice
    rolled; the robber stands where the request says, or where the fresh
    game put it; and the cached actions are the enumerator's answer. *)
Theorem reconstructed_state_is_regular_turn (data : AdvisorRequest) (g : State) (adv : Color) :
  create_game_from_advisor_request data = Ok (g, adv) →
  seated g ∧ colors g = requested_colors data ∧
  players g = (λ color, AlphaBetaPlayer color 2 true) <$> requested_colors data ∧
  Color_getitem (default "RED" (req_advised_player data)) = Ok adv ∧
  adv ∈ colors g ∧
  players g !! Color_index adv = Some (AlphaBetaPlayer adv 2 true) ∧
  current_player_index g = Color_index adv ∧
  current_turn_index g = Color_index adv ∧
  is_initial_build_phase g = false ∧ current_prompt g = PLAY_TURN ∧
  player_state g !! (seat_key adv +:+ "_HAS_ROLLED") = Some 1 ∧
  (∃ s0, fresh_game data = Ok (s0, adv) ∧
         map (board g) = map (board s0) ∧
         robber_coordinate (board g)
         = default (robber_coordinate (board s0)) (req_robber_coordinate data)) ∧
  (∃ g', generate_playable_actions g' = Ok (playable_actions g) ∧
         g = set_playable_actions (playable_actions g) g').
Proof. apply reconstructed_state. Qed.

(** ** The endpoint *)

Lemma advisor_endpoint_raise (data : AdvisorRequest) (e : Exn) :
  create_game_from_advisor_request data = Raise e →
  advisor_endpoint (Some data) = ([], Response500 e).
Proof. intros Hg. unfold advisor_endpoint, advise. by rewrite Hg. Qed.

(** A request is rejected with a 500 response, and the decision procedure is
    not called, when a color token (the advised player, a building's, a
    road's or a knight entry's) names no seated player, or a building's
    vertex is no node of [STATIC_GRAPH]. *)
Theorem invalid_overrides_rejected (data : AdvisorRequest) :
  ¬ overrides_valid data →
  ∃ e, create_game_from_advisor_request data = Raise e ∧
       advisor_endpoint (Some data) = ([], Response500 e).
Proof.
  intros Hinvalid.
  destruct (create_game_from_advisor_request data) as [[g adv]|e] eqn:Hg.
  - destruct Hinvalid. by eapply create_game_valid.
  - exists e. split; [done|]. by apply advisor_endpoint_raise.
Qed.

(** With an empty list of legal actions the endpoint answers 200 with the
    NO_ACTIONS sentinel, a null action value, the fixed explanation, the
    victory points of every seat and no action, and the decision procedure is
    not called; this when every seat of the fresh game has its
    actual-victory-points counter. *)
Theorem advisor_endpoint_no_actions (data : AdvisorRequest) (g : State) (adv : Color) :
  create_game_from_advisor_request data = Ok (g, adv) →
  (∀ s0 c, fresh_game data = Ok (s0, adv) → c ∈ colors s0 →
           is_Some (player_state s0 !! (seat_key c +:+ "_ACTUAL_VICTORY_POINTS"))) →
  playable_actions g = [] →
  ∃ vps,
    calculate_victory_points g = Ok vps ∧
    (∀ c, c ∈ colors g →
          vps !! Color_value c
          = player_state g !! (seat_key c +:+ "_ACTUAL_VICTORY_POINTS")) ∧
    advisor_endpoint (Some data)
    = ([], Response200 {| success := true;
                          resp_action_type := "NO_ACTIONS";
                          resp_action_value := VNone;
                          explanation := "No legal actions available in this state.";
                          victory_points := vps;
                          all_actions := [] |}).
Proof.
  intros Hg Hcounters Hnone.
  destruct (reconstructed_state _ _ _ Hg) as (Hseated & _).
  destruct (create_game_inv _ _ _ Hg) as (s0 & Hfresh & Hover).
  apply apply_overrides_inv in Hover
    as (s1 & s2 & Hb & Hr & _ & _ & _ & Hc & _ & _ & _ & _ & _ & _ & _ & Hdom).
  destruct (buildings_loop _ _ _ Hb) as (_ & Hc1 & _ & _ & _ & _ & Hdom1).
  destruct (roads_loop _ _ _ Hr) as (_ & Hc2 & _ & _ & _ & _ & Hdom2).
  destruct (calculate_victory_points_total g Hseated) as [vps Hvps].
  { intros c Hin. apply Hdom, Hdom2, Hdom1, (Hcounters s0 c Hfresh). congruence. }
  exists vps. split; [done|]. split.
  - intros c Hin. rewrite (calculate_victory_points_lookup g vps c Hseated Hvps).
    by rewrite decide_True.
  - unfold advisor_endpoint, advise. rewrite Hg, Hnone. simpl. by rewrite Hvps.
Qed.

(** The endpoint calls the decision procedure at most once, and only on a
    reconstructed game with a legal action: on the search player of the
    advised color (depth 2, pruning), the game and its cached action list. *)
Theorem decision_procedure_called_at_most_once (body : option AdvisorRequest) :
  (advisor_endpoint body).1 = [] ∨
  ∃ data g adv,
    body = Some data ∧
    create_game_from_advisor_request data = Ok (g, adv) ∧
    playable_actions g ≠ [] ∧
    (advisor_endpoint body).1
    = [DecideCall (AlphaBetaPlayer adv 2 true) g (playable_actions g)].
Proof.
  destruct body as [data|]; [|by left].
  unfold advisor_endpoint, advise.
  destruct (create_game_from_advisor_request data) as [[g adv]|e] eqn:Hg; [|by left].
  case_bool_decide as Hlen; [by left|]. right.
  destruct (reconstructed_state _ _ _ Hg)
    as (Hseated & _ & _ & _ & Hin & Hplayer & _).
  exists data, g, adv. split; [done|]. split; [done|]. split.
  { intros Hnil. by rewrite Hnil in Hlen. }
  unfold dict_getitem. rewrite (seated_lookup g adv Hseated), decide_True by done.
  simpl. by rewrite Hplayer.
Qed.

(** With a legal action, the response is the decision's: a 200 response
    carries the name and the value of the action the decision procedure
    returned, its explanation, the snapshot and every legal action formatted;
    an exception of the decision procedure, of the explanation or of the
    snapshot gives a 500 response with that exception. The player lookup of
    line 295 cannot fail. *)
Theorem advisor_endpoint_with_actions (data : AdvisorRequest) (g : State) (adv : Color) :
  create_game_from_advisor_request data = Ok (g, adv) →
  playable_actions g ≠ [] →
  (advisor_endpoint (Some data)).2
  = match
      (recommended_action ←
         Player_decide (AlphaBetaPlayer adv 2 true) g (playable_actions g);
       text ← generate_explanation recommended_action g adv;
       vps ← calculate_victory_points g;
       Ok {| success := true;
             resp_action_type := ActionType_name (action_type recommended_action);
             resp_action_value := action_value recommended_action;
             explanation := text;
             victory_points := vps;
             all_actions := format_action <$> playable_actions g |})
    with
    | Ok b => Response200 b
    | Raise e => Response500 e
    end.
Proof.
  intros Hg Hsome.
  destruct (reconstructed_state _ _ _ Hg)
    as (Hseated & _ & _ & _ & Hin & Hplayer & _).
  unfold advisor_endpoint, advise. rewrite Hg.
  rewrite bool_decide_eq_false_2 by (by destruct (playable_actions g)).
  unfold dict_getitem. rewrite (seated_lookup g adv Hseated), decide_True by done.
  simpl. by rewrite Hplayer.
Qed.

(** ** The explanation generator *)

Lemma string_last_is_Some (a : ascii) (s : string) :
  ∃ b, string_last (String a s) = Some b.
Proof.
  revert a. induction s as [|a' s IH]; intros a; [by eexists|].
  destruct (IH a') as [b Hb]. exists b. by rewrite <- Hb.
Qed.

(** On a truthy payload with a length, [len], [value[0]] and [value[-1]]
    raise nothing. *)
Lemma sized_payload (v : Value) :
  payload_sized v → truthy v = true →
  ∃ n x y, py_len v = Ok n ∧ py_first v = Ok x ∧ py_last v = Ok y.
Proof.
  destruct v as [|z|s|items]; simpl; intros Hsized Htruthy; try done.
  - subst z. done.
  - destruct s as [|a s]; [done|].
    destruct (string_last_is_Some a s) as [b Hb]. rewrite Hb. by eexists _, _, _.
  - destruct items as [|x items]; [done|].
    destruct (last (x :: items)) as [y|] eqn:Hlast; [by eexists _, _, _|].
    by apply last_None in Hlast.
Qed.

(** [generate_explanation] returns a text, and not the empty one, for every
    action kind, those without a template too, when the payload of a
    MARITIME_TRADE or MOVE_ROBBER action is a falsy value or one with a
    length (a tuple or a string); the payload of the other kinds is free. *)
Theorem generate_explanation_total (action : Action) (game : State) (advised_color : Color) :
  (action_type action = MARITIME_TRADE ∨ action_type action = MOVE_ROBBER →
   payload_sized (action_value action)) →
  ∃ text, generate_explanation action game advised_color = Ok text ∧ text ≠ EmptyString.
Proof.
  destruct action as [c t v]. unfold generate_explanation.
  cbn [action_type action_value]. intros Hsized.
  destruct t; try (by eexists; split; [reflexivity|]).
  - destruct (truthy v) eqn:Htruthy; [|by eexists].
    destruct (sized_payload v (Hsized (or_introl eq_refl)) Htruthy)
      as (n & x & y & -> & -> & ->).
    cbn [mbind result_bind].
    destruct (bool_decide (0 < n)%nat), (bool_decide (1 < n)%nat); by eexists.
  - destruct (truthy v) eqn:Htruthy; [|by eexists].
    destruct (sized_payload v (Hsized (or_intror eq_refl)) Htruthy)
      as (n & x & y & -> & -> & _).
    cbn [mbind result_bind].
    destruct (bool_decide (0 < n)%nat); by eexists.
Qed.

(** A MARITIME_TRADE or MOVE_ROBBER action whose payload is a non-zero
    integer makes [generate_explanation] raise a [TypeError] ([len] of an
    integer). *)
Theorem generate_explanation_type_error (c : Color) (t : ActionType) (z : Z)
  (game : State) (advised_color : Color) :
  t = MARITIME_TRADE ∨ t = MOVE_ROBBER → z ≠ 0 →
  generate_explanation {| action_color := c; action_type := t; action_value := VInt z |}
    game advised_color
  = Raise TypeError.
Proof.
  intros Ht Hz%Z.eqb_neq. unfold generate_explanation.
  cbn [action_type action_value truthy]. rewrite Hz.
  by destruct Ht as [->| ->].
Qed.

End ReconstructorClaims.

(** ** The reconstructor theorems on the demo requests *)

Lemma demo_seated_seated : seated demo_seated.
Proof. exists 2%nat. by split. Qed.

(** Reads the old value of a counter off the demo state. *)
Ltac counter_of H :=
  let v := fresh "v" in
  let Hold := fresh "Hold" in
  destruct H as (v & Hold & H); vm_compute in Hold; injection Hold as <-.

Lemma building_override_effect_witness :
  ∃ s',
    apply_building (EX := demo_externals []) demo_seated demo_settlement = Ok s' ∧
    buildings (board s') !! 0 = Some (RED, SETTLEMENT) ∧
    player_state s' !! "P0_SETTLEMENTS_AVAILABLE" = Some 4 ∧
    player_state s' !! "P0_VICTORY_POINTS" = Some 1 ∧
    player_state s' !! "P0_ACTUAL_VICTORY_POINTS" = Some 1 ∧
    player_state s' !! "P0_CITIES_AVAILABLE" = Some 4 ∧
    player_state s' !! "P1_ACTUAL_VICTORY_POINTS" = Some 0.
Proof.
  destruct (apply_building (EX := demo_externals []) demo_seated demo_settlement)
    as [s'|e] eqn:Hb; [|by vm_compute in Hb].
  exists s'. split; [done|].
  destruct (building_override_effect (EX := demo_externals []) demo_seated demo_settlement s'
              demo_seated_seated Hb) as (c & Hc & Hset & _ & Hframe).
  vm_compute in Hc. injection Hc as <-.
  destruct (Hset eq_refl) as (Hbuilt & Hstock & Hvp & Havp & Hcity).
  counter_of Hstock. counter_of Hvp. counter_of Havp.
  split; [exact Hbuilt|]. split; [exact Hstock|]. split; [exact Hvp|].
  split; [exact Havp|]. split.
  - change "P0_CITIES_AVAILABLE" with (seat_key RED +:+ "_CITIES_AVAILABLE").
    rewrite Hcity. by vm_compute.
  - change "P1_ACTUAL_VICTORY_POINTS" with (seat_key BLUE +:+ "_ACTUAL_VICTORY_POINTS").
    rewrite (Hframe BLUE "_ACTUAL_VICTORY_POINTS") by done. by vm_compute.
Defined.

Lemma unknown_building_token_is_city_witness :
  apply_building (EX := demo_externals []) demo_seated demo_town
  = apply_building (EX := demo_externals []) demo_seated (with_building "CITY" demo_town).
Proof.
  apply (unknown_building_token_is_city (EX := demo_externals []) demo_seated demo_town).
  by vm_compute.
Defined.

Lemma demo_fresh_ok (legal : list Action) :
  fresh_game (EX := demo_externals legal) demo_request = Ok (demo_seated, RED).
Proof. reflexivity. Qed.

(** Identifies the fresh game of the demo request. *)
Ltac demo_fresh H := rewrite demo_fresh_ok in H; injection H as <-.

Lemma demo_request_ok :
  create_game_from_advisor_request (EX := demo_externals []) demo_request
  = Ok (demo_final, RED).
Proof.
  assert (is_Ok (create_game_from_advisor_request (EX := demo_externals []) demo_request)
          = true) as Hok by (vm_compute; reflexivity).
  unfold demo_final.
  destruct (create_game_from_advisor_request (EX := demo_externals []) demo_request)
    as [[g adv]|e] eqn:Hg; [|done].
  destruct (create_game_inv _ _ _ Hg) as (s0 & Hfresh & _).
  rewrite demo_fresh_ok in Hfresh. by injection Hfresh as _ <-.
Qed.

Lemma demo_request_turn_ok :
  create_game_from_advisor_request (EX := demo_externals [demo_end_turn]) demo_request
  = Ok (demo_final_turn, RED).
Proof.
  assert (is_Ok (create_game_from_advisor_request (EX := demo_externals [demo_end_turn])
                   demo_request) = true) as Hok by (vm_compute; reflexivity).
  unfold demo_final_turn.
  destruct (create_game_from_advisor_request (EX := demo_externals [demo_end_turn])
              demo_request) as [[g adv]|e] eqn:Hg; [|done].
  destruct (create_game_inv _ _ _ Hg) as (s0 & Hfresh & _).
  rewrite demo_fresh_ok in Hfresh. by injection Hfresh as _ <-.
Qed.

Lemma buildable_ids_after_reconstruction_witness :
  board_buildable_ids (board demo_final) = ∅.
Proof.
  destruct (buildable_ids_after_reconstruction (EX := demo_externals []) demo_request
              demo_final RED demo_request_ok) as (s0 & Hfresh & _ & ->).
  demo_fresh Hfresh. by vm_compute.
Defined.

(** Two settlements and a city for RED in a two-player game: four actual
    victory points for RED and none for BLUE, two settlements and one city
    less in RED's stock. *)
Lemma counters_after_reconstruction_witness :
  player_state demo_final !! "P0_ACTUAL_VICTORY_POINTS" = Some 4 ∧
  player_state demo_final !! "P1_ACTUAL_VICTORY_POINTS" = Some 0 ∧
  player_state demo_final !! "P0_SETTLEMENTS_AVAILABLE" = Some 3 ∧
  player_state demo_final !! "P0_CITIES_AVAILABLE" = Some 3.
Proof.
  destruct (counters_after_reconstruction (EX := demo_externals []) demo_request
              demo_final RED demo_request_ok) as (s0 & Hfresh & Hcount).
  demo_fresh Hfresh.
  destruct (Hcount RED) as (Hstock & _ & Havp).
  destruct (Hcount BLUE) as (_ & _ & Havp').
  split; [etransitivity; [exact Havp|by vm_compute]|].
  split; [etransitivity; [exact Havp'|by vm_compute]|].
  split; [etransitivity; [exact (Hstock SETTLEMENT)|by vm_compute]|].
  etransitivity; [exact (Hstock CITY)|by vm_compute].
Defined.

Lemma road_overrides_registered_witness :
  roads (board demo_final) !! (2, 3) = Some RED ∧
  roads (board demo_final) !! (3, 2) = Some RED ∧
  player_state demo_final !! "P0_ROADS_AVAILABLE" = Some 13 ∧
  player_state demo_final !! "P1_ROADS_AVAILABLE" = Some 14.
Proof.
  destruct (road_overrides_registered (EX := demo_externals []) demo_request
              demo_final RED demo_request_ok) as (s0 & Hfresh & Hreg & Hstock).
  demo_fresh Hfresh.
  assert (∀ e, e ∈ edge_keys (2, 3) → roads (board demo_final) !! e = Some RED) as Hboth.
  { intros e He.
    destruct (Hreg [ {| r_edge_id := (0, 1); r_color := "RED" |} ]
                   {| r_edge_id := (2, 3); r_color := "RED" |}
                   [ {| r_edge_id := (1, 0); r_color := "BLUE" |} ] e)
      as (c & Hc & Hroad); [reflexivity| |exact He|].
    - intros r' ->%list_elem_of_singleton. apply (bool_decide_unpack _). by vm_compute.
    - vm_compute in Hc. by injection Hc as <-. }
  split; [apply Hboth; by left|].
  split; [apply Hboth; right; by left|].
  split; [etransitivity; [exact (Hstock RED)|by vm_compute]|].
  etransitivity; [exact (Hstock BLUE)|by vm_compute].
Defined.

Lemma reconstructed_state_is_regular_turn_witness :
  colors demo_final = [RED; BLUE] ∧
  current_player_index demo_final = 0%nat ∧
  is_initial_build_phase demo_final = false ∧
  current_prompt demo_final = PLAY_TURN ∧
  player_state demo_final !! "P0_HAS_ROLLED" = Some 1.
Proof.
  destruct (reconstructed_state_is_regular_turn (EX := demo_externals []) demo_request
              demo_final RED demo_request_ok)
    as (_ & Hcolors & _ & _ & _ & _ & Hcurrent & _ & Hphase & Hprompt & Hrolled & _).
  split; [exact Hcolors|]. split; [exact Hcurrent|]. split; [exact Hphase|].
  split; [exact Hprompt|exact Hrolled].
Defined.

Lemma invalid_overrides_rejected_witness :
  ∃ e, advisor_endpoint (EX := demo_externals []) (Some demo_bad_request)
       = ([], Response500 e).
Proof.
  destruct (invalid_overrides_rejected (EX := demo_externals []) demo_bad_request)
    as (e & _ & He); [|by exists e].
  intros (_ & Hb & _).
  destruct (Hb {| b_node_id := 0; b_color := "GREEN"; b_building := "CITY" |})
    as ((c & Hc & _) & _); [by left|].
  by vm_compute in Hc.
Defined.

Lemma demo_colors (c : Color) : c ∈ [RED; BLUE] → c = RED ∨ c = BLUE.
Proof. rewrite !elem_of_cons, elem_of_nil. tauto. Qed.

Lemma advisor_endpoint_no_actions_witness :
  ∃ vps,
    vps !! "RED" = player_state demo_final !! "P0_ACTUAL_VICTORY_POINTS" ∧
    vps !! "BLUE" = player_state demo_final !! "P1_ACTUAL_VICTORY_POINTS" ∧
    advisor_endpoint (EX := demo_externals []) (Some demo_request)
    = ([], Response200 {| success := true;
                          resp_action_type := "NO_ACTIONS";
                          resp_action_value := VNone;
                          explanation := "No legal actions available in this state.";
                          victory_points := vps;
                          all_actions := [] |}).
Proof.
  destruct (reconstructed_state (EX := demo_externals []) demo_request demo_final RED
              demo_request_ok) as (_ & Hcolors & _).
  destruct (advisor_endpoint_no_actions (EX := demo_externals []) demo_request
              demo_final RED demo_request_ok) as (vps & Hvps & Hsnap & Hresp).
  - intros s0 c Hfresh Hc. demo_fresh Hfresh.
    change (colors demo_seated) with [RED; BLUE] in Hc.
    apply demo_colors in Hc as [->| ->]; vm_compute; by eexists.
  - by vm_compute.
  - exists vps. split; [|split; [|exact Hresp]].
    + apply (Hsnap RED). rewrite Hcolors. by left.
    + apply (Hsnap BLUE). rewrite Hcolors. right. by left.
Defined.

Lemma advisor_endpoint_with_actions_witness :
  ∃ b,
    (advisor_endpoint (EX := demo_externals [demo_end_turn]) (Some demo_request)).2
    = Response200 b ∧
    resp_action_type b = "END_TURN" ∧ resp_action_value b = VNone ∧
    all_actions b = ["END_TURN"].
Proof.
  rewrite (advisor_endpoint_with_actions (EX := demo_externals [demo_end_turn]) demo_request
             demo_final_turn RED demo_request_turn_ok) by (by vm_compute).
  eexists. split; [by vm_compute|]. by vm_compute.
Defined.

Lemma generate_explanation_total_witness :
  ∃ text,
    generate_explanation (EX := demo_externals []) demo_trade demo_seated RED = Ok text ∧
    text ≠ EmptyString.
Proof.
  apply (generate_explanation_total (EX := demo_externals []) demo_trade demo_seated RED).
  intros _. exact I.
Defined.

Lemma generate_explanation_type_error_witness :
  generate_explanation (EX := demo_externals [])
    {| action_color := RED; action_type := MOVE_ROBBER; action_value := VInt 7 |}
    demo_seated RED
  = Raise TypeError.
Proof.
  apply (generate_explanation_type_error (EX := demo_externals []) RED MOVE_ROBBER 7
           demo_seated RED); [by right|done].
Defined.
